(** * Proxy pool, ban cooldown and nested retry loops of the Netnut crawler

    A shallow embedding of [proxy_manager.py], [scraper.py] and [main.py].

    Conventions of the embedding.
    - Timestamps ([time.time()], [datetime.now()]) are integers (seconds);
      the rounding of binary floating point is not represented.
    - A Python [dict] whose iteration order is observable (the proxy table,
      scanned by [min]) is an association list in insertion order; a dict
      used only through lookup, membership and [values()] (the ban table,
      the failure history) is a [gmap].
    - Every method runs as one state transition: the critical section
      guarded by [self.lock] is one step of the embedding.
    - The clock is part of the world. It moves when the program sleeps:
      by the time asked for and by what the sleep overran, which the world
      supplies and which is never negative. All the readings taken inside
      one call agree.
    - A [string] holds the UTF-8 encoding of a Python [str]. *)

From Stdlib Require Import ZArith Ascii String.
From stdpp Require Import base gmap list strings fin_maps pretty.

#[local] Set Warnings "-register-all,-clear-no-such-hyp".

(** ** Insertion-ordered dictionaries with string keys *)

Module Dict.
Section Ops.
Context {V : Type}.

Definition t := list (string * V).

Definition empty : t := [].

(** [d.get(k)] *)
Fixpoint get (k : string) (d : t) : option V :=
  match d with
  | [] => None
  | (k', v) :: d' => if decide (k = k') then Some v else get k d'
  end.

(** [k in d] *)
Definition mem (k : string) (d : t) : bool :=
  match get k d with Some _ => true | None => false end.

(** [d[k] = v]: an existing key keeps its position, a new key goes last. *)
Fixpoint set (k : string) (v : V) (d : t) : t :=
  match d with
  | [] => [(k, v)]
  | (k', v') :: d' =>
      if decide (k = k') then (k', v) :: d' else (k', v') :: set k v d'
  end.

Definition keys (d : t) : list string := d.*1.

(** [{k: v for (k, v) in kvs}] *)
Definition comprehension (kvs : list (string * V)) : t :=
  foldl (λ d kv, set kv.1 kv.2 d) empty kvs.

(** What every Python dict satisfies: a key occurs once. *)
Definition wf (d : t) : Prop := NoDup (keys d).
End Ops.
Arguments t : clear implicits.
End Dict.

(** ** Python built-ins used by the pool *)

(** [min(xs)] on numbers; [None] stands for the [ValueError] on an empty
    argument. *)
Definition py_min (xs : list Z) : option Z :=
  match xs with
  | [] => None
  | x :: xs' => Some (foldl Z.min x xs')
  end.

(** The scan of [min(d, key=d.get)]: the candidate is replaced only by a
    strictly smaller value, so the first of several minima is kept. *)
Fixpoint min_scan (best : string * Z) (rest : list (string * Z)) : string * Z :=
  match rest with
  | [] => best
  | kv :: rest' =>
      min_scan (if bool_decide (kv.2 < best.2)%Z then kv else best) rest'
  end.

(** [min(d, key=d.get)] for a dict [d] with numeric values. *)
Definition py_min_key (d : Dict.t Z) : option string :=
  match d with
  | [] => None
  | kv :: rest => Some (min_scan kv rest).1
  end.

(** ** The proxy manager's state *)

Record ProxyManager := mkProxyManager {
  proxies : Dict.t Z;            (* proxy -> last used *)
  banned_proxies : gmap string Z (* proxy -> unban time *)
}.

(** [ProxyManager()] *)
Definition new_manager : ProxyManager :=
  {| proxies := Dict.empty; banned_proxies := ∅ |}.

(** The filter of [get_proxy]:
    [proxy not in self.banned_proxies or time.time() > self.banned_proxies[proxy]] *)
Definition is_available (banned : gmap string Z) (now : Z) (proxy : string) : bool :=
  match banned !! proxy with
  | None => true
  | Some until => bool_decide (until < now)%Z
  end.

(** The dict comprehension of [get_proxy]. Its keys are keys of
    [self.proxies], so no two of them collide and the comprehension keeps
    the selected items in their order. *)
Definition available_proxies (self : ProxyManager) (now : Z) : Dict.t Z :=
  filter (λ kv, is_available (banned_proxies self) now kv.1 = true) (proxies self).

(** [get_dynamic_delay], at clock reading [now]. *)
Definition get_dynamic_delay (self : ProxyManager) (now : Z) : Z :=
  match (map_to_list (banned_proxies self)).*2 with
  | [] => 0
  | v :: vs => Z.max 0 (foldl Z.min v vs - now)
  end.

(** ** Exceptions, results and the monad of world transitions *)

Inductive Exn :=
  | ValueError (msg : string)
  | TypeError (msg : string)
  | RequestException (msg : string)
  | JSONDecodeError (msg : string)
  | OSError (msg : string).

(** [str(e)] *)
Definition str (e : Exn) : string :=
  match e with
  | ValueError msg | TypeError msg | RequestException msg | JSONDecodeError msg
  | OSError msg => msg
  end.

Inductive outcome (A : Type) :=
  | Ok (a : A)
  | Raise (e : Exn).
Arguments Ok {A} a.
Arguments Raise {A} e.

(** A Python call that may mutate the world [W] and may raise. *)
Definition M (W A : Type) : Type := W → outcome A * W.

Global Instance M_ret {W} : MRet (M W) := λ A a w, (Ok a, w).
Global Instance M_bind {W} : MBind (M W) := λ A B k m w,
  match m w with
  | (Ok a, w') => k a w'
  | (Raise e, w') => (Raise e, w')
  end.

Definition raise {W A} (e : Exn) : M W A := λ w, (Raise e, w).

(** A statement executed for its effect on the world. *)
Definition exec {W} (f : W → W) : M W unit := λ w, (Ok (), f w).

(** ** Log records and the observable trace *)

Inductive Level := ERROR | WARNING | INFO.

Record Failure := mkFailure {
  attempt : nat;
  timestamp : Z;
  error : string
}.

Record Handle := mkHandle { http : string; https : string }.

(** The [proxies=] dict that [requests] takes. *)
Definition proxy_handle (proxy : string) : Handle :=
  {| http := "http://" +:+ proxy; https := "http://" +:+ proxy |}.

Inductive Msg :=
  | MsgNoProxiesLoaded
  | MsgLoaded (n : nat) (file_name : string)
  | MsgFileNotFound (file_name : string)
  | MsgAttemptFailed (tries : nat) (delay : Z)
  | MsgNoAvailable (delay : Z)
  | MsgUpdated (proxy : string)
  | MsgBanned (proxy : string) (ban_time : Z)
  | MsgAllFailed (n : nat) (search_value : string)
  | MsgFailureHistory
  | MsgFailure (f : Failure)
  | MsgRetrying (k n : nat) (search_value : string)
  | MsgKeysNotFound (proxy : Handle)
  | MsgRequestFailed (proxy : Handle) (e : Exn)
  | MsgSaved (filename proxy_key : string)
  | MsgExiting
  | MsgThreadPool (max_threads : Z).

Inductive Event :=
  | EvSleep (d : Z)
  | EvLog (lvl : Level) (m : Msg).

(** ** JSON values, as far as the scraper looks at them *)

Inductive Json :=
  | JNull
  | JBool (b : bool)
  | JNumber (n : Z)
  | JString (s : string)
  | JArray (xs : list Json)
  | JObject (kvs : list (string * Json)).

(** [isinstance(j, dict)] *)
Definition is_dict (j : Json) : bool :=
  match j with JObject _ => true | _ => false end.

(** ** The world of one worker *)

Record World := mkWorld {
  pm : ProxyManager;                (* the shared ProxyManager *)
  clock : Z;                        (* what time.time() returns *)
  events : list Event;              (* sleeps and log records, oldest first *)
  disk : gmap string (list string); (* text files, as the lines iteration yields *)
  saved : gmap string Json;         (* files written with json.dump *)
  lags : list N                     (* by how much the coming sleeps overrun *)
}.

Definition set_pm (f : ProxyManager → ProxyManager) (w : World) : World :=
  {| pm := f (pm w); clock := clock w; events := events w;
     disk := disk w; saved := saved w; lags := lags w |}.

Definition emit (ev : Event) (w : World) : World :=
  {| pm := pm w; clock := clock w; events := events w ++ [ev];
     disk := disk w; saved := saved w; lags := lags w |}.

Definition advance (d : Z) (w : World) : World :=
  {| pm := pm w; clock := (clock w + d)%Z; events := events w;
     disk := disk w; saved := saved w; lags := lags w |}.

(** By how much the next sleep overruns; nothing once the list is used up. *)
Definition overrun (w : World) : Z := Z.of_N (hd 0%N (lags w)).

(** Waking up from a sleep: the overrun has passed as well. *)
Definition wake (w : World) : World :=
  {| pm := pm w; clock := (clock w + overrun w)%Z; events := events w;
     disk := disk w; saved := saved w; lags := tail (lags w) |}.

Definition save (filename : string) (j : Json) (w : World) : World :=
  {| pm := pm w; clock := clock w; events := events w;
     disk := disk w; saved := <[filename := j]> (saved w); lags := lags w |}.

(** The services the two retry decorators take from their surroundings:
    the manager behind [self], the [time] module and [logging]. *)
Class Host (W : Type) := {
  self_manager : W → ProxyManager;
  time_time : W → Z;
  time_sleep : Z → W → W;
  logging : Level → Msg → W → W
}.

Global Instance world_host : Host World := {|
  self_manager := pm;
  time_time := clock;
  time_sleep d w := emit (EvSleep d) (wake (advance d w));
  logging lvl m := emit (EvLog lvl m)
|}.

(** A world paired with a counter, for counting the calls of a function
    from outside: the services act on the world and leave the counter. *)
Global Instance counting_host {W} `{Host W} : Host (nat * W) := {|
  self_manager cw := self_manager cw.2;
  time_time cw := time_time cw.2;
  time_sleep d cw := (cw.1, time_sleep d cw.2);
  logging lvl m cw := (cw.1, logging lvl m cw.2)
|}.

(** [func] with every call counted. *)
Definition counted {W A} (func : M W A) : M (nat * W) A := λ cw,
  let '(r, w') := func cw.2 in (r, (S cw.1, w')).

(** ** [proxy_manager.py]: the methods of [ProxyManager] *)

(** The characters [str.isspace] accepts, by their UTF-8 encoding.
    One byte: U+0009 to U+000D, U+001C to U+0020. *)
Definition isspace1 (c : ascii) : bool :=
  let n := N_of_ascii c in
  ((9 <=? n) && (n <=? 13) || (28 <=? n) && (n <=? 32))%N.

(** Two bytes: U+0085 (C2 85) and U+00A0 (C2 A0). *)
Definition isspace2 (c1 c2 : ascii) : bool :=
  let '(n1, n2) := (N_of_ascii c1, N_of_ascii c2) in
  ((n1 =? 194) && ((n2 =? 133) || (n2 =? 160)))%N.

(** Three bytes: U+1680 (E1 9A 80), U+2000 to U+200A (E2 80 80 to 8A),
    U+2028, U+2029 and U+202F (E2 80 A8, A9, AF), U+205F (E2 81 9F) and
    U+3000 (E3 80 80). *)
Definition isspace3 (c1 c2 c3 : ascii) : bool :=
  let '(n1, n2, n3) := (N_of_ascii c1, N_of_ascii c2, N_of_ascii c3) in
  ((n1 =? 225) && (n2 =? 154) && (n3 =? 128) ||
   (n1 =? 226) && (n2 =? 128) &&
     ((128 <=? n3) && (n3 <=? 138) || (n3 =? 168) || (n3 =? 169) || (n3 =? 175)) ||
   (n1 =? 226) && (n2 =? 129) && (n3 =? 159) ||
   (n1 =? 227) && (n2 =? 128) && (n3 =? 128))%N.

(** Dropping the characters at the front that the three tests accept. *)
Fixpoint drop_front (sp1 : ascii → bool) (sp2 : ascii → ascii → bool)
    (sp3 : ascii → ascii → ascii → bool) (s : string) : string :=
  match s with
  | EmptyString => EmptyString
  | String c1 s1 =>
      if sp1 c1 then drop_front sp1 sp2 sp3 s1
      else
        match s1 with
        | EmptyString => s
        | String c2 s2 =>
            if sp2 c1 c2 then drop_front sp1 sp2 sp3 s2
            else
              match s2 with
              | EmptyString => s
              | String c3 s3 =>
                  if sp3 c1 c2 c3 then drop_front sp1 sp2 sp3 s3 else s
              end
        end
  end.

(** [s.lstrip()] *)
Definition lstrip (s : string) : string := drop_front isspace1 isspace2 isspace3 s.

(** [s.rstrip()]: the same from the back, where the bytes of a character
    come in reverse. *)
Definition rstrip (s : string) : string :=
  String.rev
    (drop_front isspace1 (λ c2 c1, isspace2 c1 c2) (λ c3 c2 c1, isspace3 c1 c2 c3)
       (String.rev s)).

(** [s.strip()] *)
Definition strip (s : string) : string := rstrip (lstrip s).

(** [{line.strip(): 0 for line in f if line.strip()}] *)
Definition parse_proxies (lines : list string) : Dict.t Z :=
  Dict.comprehension
    ((λ line, (strip line, 0%Z)) <$> filter (λ line, strip line ≠ EmptyString) lines).

Definition set_proxies (d : Dict.t Z) (self : ProxyManager) : ProxyManager :=
  {| proxies := d; banned_proxies := banned_proxies self |}.

Definition set_banned (b : gmap string Z) (self : ProxyManager) : ProxyManager :=
  {| proxies := proxies self; banned_proxies := b |}.

(** [read_proxies]: a name absent from the disk is the [FileNotFoundError]
    the method catches. *)
Definition read_proxies (file_name : string) : M World bool := λ w,
  match disk w !! file_name with
  | Some lines =>
      let w := set_pm (set_proxies (parse_proxies lines)) w in
      if bool_decide (proxies (pm w) = []) then
        (Ok false, logging ERROR MsgNoProxiesLoaded w)
      else
        (Ok true, logging INFO (MsgLoaded (length (proxies (pm w))) file_name) w)
  | None =>
      (Ok false, logging ERROR (MsgFileNotFound file_name) w)
  end.

Section Decorator.
Context {W : Type} `{Host W} {A : Type}.

Definition max_tries : nat := 3.

(** The [while tries < max_tries] loop of [wrapper]; [fuel] bounds the
    number of iterations. A loop that ends by its test makes the
    wrapper return [None]. *)
Fixpoint retry_loop (func : M W A) (fuel tries : nat) : M W (option A) := λ w,
  match fuel with
  | 0 => (Ok None, w)
  | S fuel' =>
      if bool_decide (tries < max_tries) then
        match func w with
        | (Ok r, w) => (Ok (Some r), w)
        | (Raise e, w) =>
            let tries := tries + 1 in
            if bool_decide (tries = max_tries) then (Raise e, w)
            else
              let delay := get_dynamic_delay (self_manager w) (time_time w) in
              let w := logging INFO (MsgAttemptFailed tries delay) w in
              retry_loop func fuel' tries (time_sleep delay w)
        end
      else (Ok None, w)
  end.

Definition dynamic_retry_decorator (func : M W A) : M W (option A) :=
  retry_loop func max_tries 0.

(** The three statements between a failed try and the next one:
    compute the delay, log, sleep. *)
Definition backoff (tries : nat) (w : W) : W :=
  let delay := get_dynamic_delay (self_manager w) (time_time w) in
  let w := logging INFO (MsgAttemptFailed tries delay) w in
  time_sleep delay w.
End Decorator.


(** The body of [get_proxy], the part under [with self.lock]. *)
Definition get_proxy_body : M World (Handle * string) := λ w,
  let available_proxies := available_proxies (pm w) (clock w) in
  if bool_decide (available_proxies = []) then
    let delay := get_dynamic_delay (pm w) (clock w) in
    (Raise (ValueError "No available proxies, retrying..."),
     logging ERROR (MsgNoAvailable delay) w)
  else
    match py_min_key available_proxies with
    | None => (Raise (ValueError "min() arg is an empty sequence"), w)
    | Some least_used_proxy =>
        let w :=
          set_pm (λ self,
            set_proxies (Dict.set least_used_proxy (clock w) (proxies self)) self) w in
        (Ok (proxy_handle least_used_proxy, least_used_proxy), w)
    end.

(** [get_proxy] as the class binds it: the body under the decorator. *)
Definition get_proxy : M World (option (Handle * string)) :=
  dynamic_retry_decorator get_proxy_body.

Definition update_proxy (proxy : string) : M World unit := λ w,
  if Dict.mem proxy (proxies (pm w)) then
    let w :=
      set_pm (λ self, set_proxies (Dict.set proxy (clock w) (proxies self)) self) w in
    (Ok (), logging INFO (MsgUpdated proxy) w)
  else (Ok (), w).

Definition ban_proxy (proxy : string) : M World unit := λ w,
  let ban_time := (clock w + 180)%Z in
  let w :=
    set_pm (λ self, set_banned (<[proxy := ban_time]> (banned_proxies self)) self) w in
  (Ok (), logging WARNING (MsgBanned proxy ban_time) w).

(** ** [scraper.py]: the failure tracker and the outer retry decorator *)

Record RetryTracker := mkRetryTracker {
  failed_searches : gmap string (list Failure)
}.

(** [RetryTracker()] *)
Definition new_tracker : RetryTracker := {| failed_searches := ∅ |}.

(** [record_failure]; [now] is the reading of [datetime.now()]. *)
Definition record_failure (search_value : string) (attempt : nat) (e : Exn)
    (now : Z) (self : RetryTracker) : RetryTracker :=
  let fs := failed_searches self in
  let fs := if decide (fs !! search_value = None) then <[search_value := []]> fs else fs in
  {| failed_searches :=
       alter (λ l, l ++ [{| attempt := attempt; timestamp := now; error := str e |}])
             search_value fs |}.

(** [get_failure_report()[search_value]], empty for an unknown task. *)
Definition report (search_value : string) (self : RetryTracker) : list Failure :=
  default [] (failed_searches self !! search_value).

Section Tracking.
Context {W : Type} `{Host W} {A : Type}.
Variable tries : nat.
(** The decorated function, applied to its first argument. *)
Variable func : string → M W A.

(** The body of [for attempt in range(tries + 1)], on the tracker of the
    decorator's closure and the world. *)
Fixpoint attempt_loop (search_value : string) (attempts : list nat)
    : M (RetryTracker * W) (option A) := λ '(retry_tracker, w),
  match attempts with
  | [] => (Ok None, (retry_tracker, w))
  | attempt :: attempts =>
      match func search_value w with
      | (Ok r, w) => (Ok (Some r), (retry_tracker, w))
      | (Raise e, w) =>
          let retry_tracker :=
            record_failure search_value (attempt + 1) e (time_time w) retry_tracker in
          if bool_decide (attempt = tries) then
            let w := logging ERROR (MsgAllFailed (tries + 1) search_value) w in
            let w := logging ERROR MsgFailureHistory w in
            let w :=
              foldl (λ w failure, logging ERROR (MsgFailure failure) w) w
                    (report search_value retry_tracker) in
            (Raise e, (retry_tracker, w))
          else
            let w :=
              logging WARNING (MsgRetrying (attempt + 1) (tries + 1) search_value) w in
            attempt_loop search_value attempts (retry_tracker, w)
      end
  end.

(** [wrapper] of [retry_with_tracking(tries)(func)]. *)
Definition retry_with_tracking (search_value : string)
    : M (RetryTracker * W) (option A) :=
  attempt_loop search_value (seq 0 (tries + 1)).
End Tracking.

(** ** [scraper.py]: the task body *)

(** What [requests.post] hands back, by what [response.json()] makes of it. *)
Inductive Response :=
  | JsonBody (j : Json)
  | OtherBody (text : string).

(** [response.json()] *)
Definition response_json (response : Response) : outcome Json :=
  match response with
  | JsonBody j => Ok j
  | OtherBody _ => Raise (JSONDecodeError "Expecting value")
  end.

Definition lift {W A} (r : outcome A) : M W A := λ w, (r, w).

Section Scraper.
(** The network and the regular-expression engine are outside the
    program: [requests.get] yields the page text or raises,
    [requests.post] yields a response or raises, and the two searches
    yield the captured group when the pattern occurs. *)
Variable requests_get : Handle → World → outcome string.
Variable requests_post : string → string → string → Handle → World → outcome Response.
Variable client_id_match client_secret_match : string → option string.
(** So are the built-in [repr] on [str] and the file system on writing:
    [file_error filename w] is the exception that [open(filename, "w")] or
    the dump raises in [w], if one is raised. *)
Variable py_repr : string → string.
Variable file_error : string → World → option Exn.

(** [f"{proxy}"] for the [proxies=] dict: the [repr] of a dict of two
    strings. *)
Definition format_handle (proxy : Handle) : string :=
  "{'http': " +:+ py_repr (http proxy) +:+ ", 'https': " +:+ py_repr (https proxy)
  +:+ "}".

Definition get_access_keys (proxy : Handle) : M World (string * string) := λ w,
  match requests_get proxy w with
  | Ok data =>
      match client_id_match data, client_secret_match data with
      | Some client_id, Some client_secret => (Ok (client_id, client_secret), w)
      | _, _ =>
          (Raise (ValueError ("Access keys not found for proxy: " +:+ format_handle proxy)),
           logging WARNING (MsgKeysNotFound proxy) w)
      end
  | Raise (RequestException msg) =>
      (Raise (RequestException msg),
       logging ERROR (MsgRequestFailed proxy (RequestException msg)) w)
  | Raise e => (Raise e, w)
  end.

(** [with open(filename, "w") as file: json.dump(j, file, indent=4)] *)
Definition write_json (filename : string) (j : Json) : M World unit := λ w,
  match file_error filename w with
  | Some e => (Raise e, w)
  | None => (Ok (), save filename j w)
  end.

(** [get_serp_results] before decoration. *)
Definition get_serp_results_body (search_value : string) : M World unit :=
  got ← get_proxy;
  match got with
  | None => raise (TypeError "cannot unpack non-iterable NoneType object")
  | Some (proxy, proxy_key) =>
      '(client_id, client_secret) ← get_access_keys proxy;
      if bool_decide (client_id = EmptyString) || bool_decide (client_secret = EmptyString)
      then raise (ValueError ("Failed to retrieve access keys for proxy: " +:+ proxy_key))
      else
        response ← (λ w, (requests_post search_value client_id client_secret proxy w, w));
        json_response ← lift (response_json response);
        if negb (is_dict json_response) then
          ban_proxy proxy_key;;
          raise (ValueError "Unexpected response format, retrying...")
        else
          let filename := search_value +:+ ".txt" in
          write_json filename json_response;;
          exec (logging INFO (MsgSaved filename proxy_key));;
          update_proxy proxy_key
  end.

(** [get_serp_results]: the body under [@retry_with_tracking(tries=10)]. *)
Definition get_serp_results (search_value : string)
    : M (RetryTracker * World) (option unit) :=
  retry_with_tracking 10 get_serp_results_body search_value.
End Scraper.

(** ** [main.py] *)

(** [[f"nana{_}" for _ in range(50)]] *)
Definition search_terms : list string :=
  (λ i : nat, "nana" +:+ pretty i) <$> seq 0 50.

(** What [main] hands to the executor: nothing when it returns early,
    otherwise the pool size and one task per search term. *)
Inductive Dispatch :=
  | NoDispatch
  | Submitted (max_threads : Z) (tasks : list string).

Definition main (cpu_count : Z) : M World Dispatch :=
  exec (set_pm (λ _, new_manager));;
  loaded ← read_proxies "proxies.txt";
  if negb loaded then
    exec (logging ERROR MsgExiting);;
    mret NoDispatch
  else
    let max_threads := Z.max 10 ((cpu_count * 5) `div` 2) in
    exec (logging INFO (MsgThreadPool max_threads));;
    mret (Submitted max_threads search_terms).

(** [proxy in available_proxies] at clock reading [now]: [proxy] is among
    the candidates of [get_proxy]. *)
Definition eligible (self : ProxyManager) (now : Z) (proxy : string) : bool :=
  Dict.mem proxy (available_proxies self now).

(** ** The specification's wording of [minWaitUntilUnban], for comparison *)

(** The unban times of the proxies that are banned at [now]: the recorded
    times that lie in the future. *)
Definition bans_in_force (self : ProxyManager) (now : Z) : list Z :=
  filter (λ until, (now < until)%Z) (map_to_list (banned_proxies self)).*2.

(** "0 if no proxy is currently banned; otherwise
    max(0, earliestBannedUntil - now) over currently banned proxies". *)
Definition min_wait_until_unban (self : ProxyManager) (now : Z) : Z :=
  match py_min (bans_in_force self now) with
  | None => 0
  | Some earliest => Z.max 0 (earliest - now)
  end.

(** ** Concrete pools and worlds for the examples *)

Definition world_of (self : ProxyManager) (now : Z) : World :=
  {| pm := self; clock := now; events := []; disk := ∅; saved := ∅; lags := [] |}.

(** The same with sleeps that overrun. *)
Definition world_lagging (self : ProxyManager) (now : Z) (lags : list N) : World :=
  {| pm := self; clock := now; events := []; disk := ∅; saved := ∅; lags := lags |}.

(** Two proxies; the ban of [a] ran out at 5, the ban of [b] lasts until 200. *)
Definition stale_ban_pool : ProxyManager :=
  {| proxies := [("a", 0%Z); ("b", 0%Z)];
     banned_proxies := <["b" := 200%Z]> (<["a" := 5%Z]> ∅) |}.

(** One proxy, never used, never banned. *)
Definition single_pool : ProxyManager :=
  {| proxies := [("a", 0%Z)]; banned_proxies := ∅ |}.

(** [single_pool] after [ban_proxy "a"] at time 0. *)
Definition single_pool_banned : ProxyManager :=
  pm (ban_proxy "a" (world_of single_pool 0)).2.

(** Four proxies; [b] is banned until 100, and [c] and [d] tie for the
    oldest use among the others. *)
Definition tie_pool : ProxyManager :=
  {| proxies := [("a", 5%Z); ("b", 1%Z); ("c", 3%Z); ("d", 3%Z)];
     banned_proxies := <["b" := 100%Z]> ∅ |}.

(** A proxy file with surrounding blanks, an empty line and a repeated
    endpoint. *)
Definition proxy_file : list string :=
  ["10.0.0.1:8080" +:+ String "010" EmptyString;
   String "010" EmptyString;
   "  10.0.0.2:8080 " +:+ String "010" EmptyString;
   "10.0.0.1:8080"].

(** U+00A0 and U+2003 in UTF-8, and the line feed. *)
Definition nbsp : string := String "194" (String "160" EmptyString).
Definition em_space : string := String "226" (String "128" (String "131" EmptyString)).
Definition lf : string := String "010" EmptyString.

Definition world_with_file (file_name : string) (lines : list string) : World :=
  {| pm := new_manager; clock := 0; events := [];
     disk := <[file_name := lines]> ∅; saved := ∅; lags := [] |}.

(** A task body that raises at every call. *)
Definition failing_task : string → M World unit :=
  λ _, raise (RequestException "connection refused").

(** A network for the examples: the key page is served and both searches
    find their group; the search request is answered by [post]. *)
Definition key_page : Handle → World → outcome string :=
  λ _ _, Ok "CF_ACCESS_CLIENT_ID: id, CF_ACCESS_CLIENT_SECRET: secret".
Definition find_client_id : string → option string := λ _, Some "id".
Definition find_client_secret : string → option string := λ _, Some "secret".

(** [repr] as it is on a string of printable ASCII without quotes or
    backslashes, and a file system that takes every write. *)
Definition quoted : string → string := λ s, "'" +:+ s +:+ "'".
Definition writable : string → World → option Exn := λ _ _, None.


(** The search request is answered with an HTML page, which is no JSON. *)
Definition captcha_page : string → string → string → Handle → World → outcome Response :=
  λ _ _ _ _ _, Ok (OtherBody "<html>captcha</html>").

(** The search request is answered with JSON that is a list. *)
Definition json_list : string → string → string → Handle → World → outcome Response :=
  λ _ _ _ _ _, Ok (JsonBody (JArray [JString "captcha"])).


(** The source of proxies is missing, or has no line with anything but
    white space on it. *)
Definition no_proxy_source (file_name : string) (w : World) : Prop :=
  match disk w !! file_name with
  | None => True
  | Some lines => Forall (λ line, strip line = EmptyString) lines
  end.

(** * Properties *)

(** ** Dictionaries *)

Section DictFacts.
Context {V : Type}.
Implicit Types (d : Dict.t V) (k : string) (v : V).

Lemma dict_get_set_eq k v d : Dict.get k (Dict.set k v d) = Some v.
Proof.
  induction d as [|[k' v'] d IH]; cbn [Dict.get Dict.set].
  - by rewrite decide_True.
  - destruct (decide (k = k')) as [->|Hne]; cbn [Dict.get].
    + by rewrite decide_True.
    + by rewrite decide_False.
Qed.

Lemma dict_get_set_ne k k' v d :
  k ≠ k' → Dict.get k' (Dict.set k v d) = Dict.get k' d.
Proof.
  intros Hne. induction d as [|[k0 v0] d IH]; cbn [Dict.get Dict.set].
  - by rewrite decide_False.
  - destruct (decide (k = k0)) as [->|Hne0]; cbn [Dict.get].
    + by rewrite !decide_False.
    + by rewrite IH.
Qed.

Lemma dict_get_None k d : Dict.get k d = None ↔ k ∉ Dict.keys d.
Proof.
  unfold Dict.keys. induction d as [|[k' v'] d IH]; cbn [Dict.get fmap list_fmap fst].
  - split; [intros _; apply not_elem_of_nil | done].
  - rewrite not_elem_of_cons. destruct (decide (k = k')) as [->|Hne]; naive_solver.
Qed.

Lemma dict_get_Some_elem k v d : Dict.get k d = Some v → (k, v) ∈ d.
Proof.
  induction d as [|[k' v'] d IH]; cbn [Dict.get]; [done|].
  destruct (decide (k = k')) as [->|Hne].
  - intros [= ->]. apply list_elem_of_here.
  - intros. apply list_elem_of_further. auto.
Qed.

(** In a well-formed dict the value of a key is the one stored with it. *)
Lemma dict_get_middle k v (before after : Dict.t V) :
  Dict.wf (before ++ (k, v) :: after) → Dict.get k (before ++ (k, v) :: after) = Some v.
Proof.
  unfold Dict.wf, Dict.keys. induction before as [|[k' v'] before IH]; cbn.
  - by rewrite decide_True.
  - intros [Hnotin Hnd]%NoDup_cons. rewrite decide_False; [auto|].
    intros ->. apply Hnotin. rewrite fmap_app. set_solver.
Qed.

Lemma dict_keys_set k v d :
  Dict.keys (Dict.set k v d) =
  if decide (k ∈ Dict.keys d) then Dict.keys d else Dict.keys d ++ [k].
Proof.
  unfold Dict.keys. induction d as [|[k' v'] d IH]; cbn [Dict.set fmap list_fmap fst].
  - rewrite decide_False; [done | apply not_elem_of_nil].
  - destruct (decide (k = k')) as [->|Hne]; cbn [fmap list_fmap fst].
    + rewrite decide_True; [done | apply list_elem_of_here].
    + rewrite IH. destruct (decide (k ∈ d.*1)).
      * rewrite decide_True; [done | by apply list_elem_of_further].
      * rewrite decide_False; [done|]. rewrite not_elem_of_cons. done.
Qed.

Lemma dict_wf_set k v d : Dict.wf d → Dict.wf (Dict.set k v d).
Proof.
  unfold Dict.wf. rewrite dict_keys_set. case_decide; [done|].
  intros Hnd. apply NoDup_app. split_and!; [done| |apply NoDup_singleton].
  intros x Hx ->%list_elem_of_singleton. done.
Qed.

Lemma dict_elem_of_keys_set k k' v d :
  k' ∈ Dict.keys (Dict.set k v d) ↔ k' = k ∨ k' ∈ Dict.keys d.
Proof. rewrite dict_keys_set. case_decide; set_solver. Qed.

(** A dict comprehension is a dict; it has the keys it was given, each
    with the value of its last occurrence. *)
Lemma dict_comprehension_snoc (kvs : list (string * V)) kv :
  Dict.comprehension (kvs ++ [kv]) = Dict.set kv.1 kv.2 (Dict.comprehension kvs).
Proof. unfold Dict.comprehension. by rewrite foldl_app. Qed.

Lemma dict_comprehension_wf (kvs : list (string * V)) :
  Dict.wf (Dict.comprehension kvs).
Proof.
  induction kvs as [|kv kvs IH] using rev_ind.
  - apply NoDup_nil_2.
  - rewrite dict_comprehension_snoc. by apply dict_wf_set.
Qed.

Lemma dict_comprehension_keys (kvs : list (string * V)) k :
  k ∈ Dict.keys (Dict.comprehension kvs) ↔ k ∈ kvs.*1.
Proof.
  induction kvs as [|kv kvs IH] using rev_ind.
  - done.
  - rewrite dict_comprehension_snoc, dict_elem_of_keys_set, fmap_app.
    rewrite elem_of_app. cbn [fmap list_fmap].
    rewrite list_elem_of_singleton. naive_solver.
Qed.

Lemma dict_comprehension_const (kvs : list (string * V)) k v0 :
  Forall (λ kv, kv.2 = v0) kvs → k ∈ kvs.*1 →
  Dict.get k (Dict.comprehension kvs) = Some v0.
Proof.
  induction kvs as [|kv kvs IH] using rev_ind; [by intros _ ?%elem_of_nil|].
  intros [Hall Hkv]%Forall_app Hin. apply Forall_cons_1 in Hkv as [Hkv _].
  rewrite dict_comprehension_snoc.
  destruct (decide (kv.1 = k)) as [<-|Hne].
  - rewrite dict_get_set_eq. f_equal. exact Hkv.
  - rewrite dict_get_set_ne by done. apply IH; [done|].
    rewrite fmap_app, elem_of_app in Hin. cbn [fmap list_fmap] in Hin.
    rewrite list_elem_of_singleton in Hin. naive_solver.
Qed.
End DictFacts.

(** ** Selection of the least recently used proxy *)

(** A list that filters to [pre ++ m :: post] splits around [m]. *)
Lemma filter_middle {A} (P : A → Prop) `{!∀ x, Decision (P x)} (l pre post : list A) m :
  filter P l = pre ++ m :: post →
  ∃ before after,
    l = before ++ m :: after ∧ filter P before = pre ∧ filter P after = post ∧ P m.
Proof.
  revert pre. induction l as [|x l IH]; intros pre Hf.
  - by destruct pre.
  - rewrite filter_cons in Hf. destruct (decide (P x)) as [HP|HP].
    + destruct pre as [|y pre]; injection Hf as -> Hf.
      * exists [], l. by rewrite filter_nil.
      * destruct (IH _ Hf) as (before & after & -> & <- & <- & Hm).
        exists (y :: before), after. by rewrite filter_cons_True.
    + destruct (IH _ Hf) as (before & after & -> & <- & <- & Hm).
      exists (x :: before), after. by rewrite filter_cons_False.
Qed.

Lemma filter_all {A} (P : A → Prop) `{!∀ x, Decision (P x)} (l : list A) :
  Forall P l → filter P l = l.
Proof.
  induction 1 as [|x l HP _ IH]; [done|]. by rewrite filter_cons_True, IH.
Qed.

Lemma filter_none {A} (P : A → Prop) `{!∀ x, Decision (P x)} (l : list A) :
  Forall (λ x, ¬ P x) l → filter P l = [].
Proof.
  induction 1 as [|x l HP _ IH]; [done|]. by rewrite filter_cons_False.
Qed.

(** The scan keeps the first entry of least value: whatever stands before
    it is strictly greater, whatever stands after it is no smaller. *)
Lemma min_scan_first_least best rest pre post :
  Forall (λ x, (best.2 < x.2)%Z) pre →
  Forall (λ x, (best.2 ≤ x.2)%Z) post →
  ∃ pre' post',
    pre ++ best :: post ++ rest = pre' ++ min_scan best rest :: post' ∧
    Forall (λ x, ((min_scan best rest).2 < x.2)%Z) pre' ∧
    Forall (λ x, ((min_scan best rest).2 ≤ x.2)%Z) post'.
Proof.
  revert best pre post. induction rest as [|kv rest IH]; intros best pre post Hpre Hpost.
  - exists pre, post. by rewrite app_nil_r.
  - cbn [min_scan]. case_bool_decide as Hlt.
    + destruct (IH kv (pre ++ best :: post) []) as (pre' & post' & Heq & ? & ?).
      * apply Forall_app. split; [|apply Forall_cons; split].
        -- eapply Forall_impl; [exact Hpre|]. intros x ?; simpl in *. lia.
        -- done.
        -- eapply Forall_impl; [exact Hpost|]. intros x ?; simpl in *. lia.
      * done.
      * exists pre', post'. split; [|done]. rewrite <- Heq. by rewrite <- !app_assoc.
    + destruct (IH best pre (post ++ [kv])) as (pre' & post' & Heq & ? & ?).
      * done.
      * apply Forall_app. split; [done|]. apply Forall_singleton. lia.
      * exists pre', post'. split; [|done]. rewrite <- Heq. by rewrite <- !app_assoc.
Qed.

Lemma py_min_key_first_least (d : Dict.t Z) :
  d ≠ [] →
  ∃ pre least last_used post,
    d = pre ++ (least, last_used) :: post ∧
    py_min_key d = Some least ∧
    Forall (λ x, (last_used < x.2)%Z) pre ∧
    Forall (λ x, (last_used ≤ x.2)%Z) post.
Proof.
  destruct d as [|kv rest]; [done|]. intros _.
  destruct (min_scan_first_least kv rest [] []) as (pre & post & Heq & Hpre & Hpost);
    [done..|].
  destruct (min_scan kv rest) as [least last_used] eqn:Hscan.
  exists pre, least, last_used, post. split_and!; try done.
  cbn [py_min_key]. by rewrite Hscan.
Qed.

Lemma available_proxies_nonempty self now :
  (∃ proxy, proxy ∈ Dict.keys (proxies self) ∧
            is_available (banned_proxies self) now proxy = true) ↔
  available_proxies self now ≠ [].
Proof.
  unfold available_proxies, Dict.keys. split.
  - intros (proxy & [[k v] [-> Hin]]%list_elem_of_fmap & Hav) Hnil.
    assert ((k, v) ∈ filter (λ kv, is_available (banned_proxies self) now kv.1 = true)
                            (proxies self)) as Hf
      by by apply list_elem_of_filter.
    rewrite Hnil in Hf. by apply elem_of_nil in Hf.
  - intros Hne.
    destruct (filter _ _) as [|[k v] l] eqn:Hf; [done|].
    assert ((k, v) ∈ filter (λ kv, is_available (banned_proxies self) now kv.1 = true)
                            (proxies self)) as [Hav Hin]%list_elem_of_filter
      by (rewrite Hf; apply list_elem_of_here).
    exists k. split; [|done]. apply list_elem_of_fmap. by exists (k, v).
Qed.

(** What the body of [get_proxy] does when a proxy is available. *)
Lemma get_proxy_body_selects (w : World) :
  available_proxies (pm w) (clock w) ≠ [] →
  ∃ before least last_used after,
    proxies (pm w) = before ++ (least, last_used) :: after ∧
    is_available (banned_proxies (pm w)) (clock w) least = true ∧
    (∀ q lq, (q, lq) ∈ before →
       is_available (banned_proxies (pm w)) (clock w) q = true → (last_used < lq)%Z) ∧
    (∀ q lq, (q, lq) ∈ after →
       is_available (banned_proxies (pm w)) (clock w) q = true → (last_used ≤ lq)%Z) ∧
    get_proxy_body w =
      (Ok (proxy_handle least, least),
       set_pm (set_proxies (Dict.set least (clock w) (proxies (pm w)))) w).
Proof.
  intros Hne.
  destruct (py_min_key_first_least _ Hne)
    as (pre & least & last_used & post & Heq & Hmin & Hpre & Hpost).
  destruct (filter_middle _ _ _ _ _ Heq) as (before & after & Hsplit & <- & <- & Hav).
  exists before, least, last_used, after. split_and!; try done.
  - intros q lq Hin Hq. rewrite Forall_forall in Hpre.
    apply (Hpre (q, lq)). by apply list_elem_of_filter.
  - intros q lq Hin Hq. rewrite Forall_forall in Hpost.
    apply (Hpost (q, lq)). by apply list_elem_of_filter.
  - unfold get_proxy_body. rewrite bool_decide_eq_false_2 by done.
    by rewrite Hmin.
Qed.

(** ** The inner retry loop *)

Section DecoratorFacts.
Context {W : Type} `{Host W} {A : Type}.
Implicit Types (func : M W A) (w : W).

(** The loop ends by itself: more fuel than the tries that are left
    changes nothing. *)
Lemma retry_loop_fuel func fuel tries w :
  max_tries - tries ≤ fuel →
  retry_loop func fuel tries w = retry_loop func (max_tries - tries) tries w.
Proof.
  revert tries w. induction fuel as [|fuel IH]; intros tries w Hfuel.
  - by replace (max_tries - tries) with 0 by lia.
  - destruct (decide (tries < max_tries)) as [Hlt|Hge].
    + replace (max_tries - tries) with (S (max_tries - (tries + 1))) by lia.
      cbn [retry_loop]. rewrite bool_decide_eq_true_2 by done.
      destruct (func w) as [[r|e] w1]; [done|].
      case_bool_decide; [done|]. apply IH. lia.
    + replace (max_tries - tries) with 0 by lia.
      cbn [retry_loop]. by rewrite bool_decide_eq_false_2.
Qed.

(** The decorated function, written out. *)
Lemma dynamic_retry_decorator_unfold func w :
  dynamic_retry_decorator func w =
    match func w with
    | (Ok r, w1) => (Ok (Some r), w1)
    | (Raise _, w1) =>
        match func (backoff 1 w1) with
        | (Ok r, w2) => (Ok (Some r), w2)
        | (Raise _, w2) =>
            match func (backoff 2 w2) with
            | (Ok r, w3) => (Ok (Some r), w3)
            | (Raise e, w3) => (Raise e, w3)
            end
        end
    end.
Proof.
  unfold dynamic_retry_decorator, max_tries, backoff. cbn.
  destruct (func w) as [[r|e] w1]; [done|].
  destruct (func _) as [[r|e'] w2]; [done|].
  by destruct (func _) as [[r|e''] w3].
Qed.
End DecoratorFacts.

(** Counting the calls changes neither the result nor the world. *)
Lemma dynamic_retry_decorator_counted {W} `{Host W} {A} (func : M W A) (w : W) n :
  ∃ calls,
    1 ≤ calls ≤ 3 ∧
    dynamic_retry_decorator (counted func) (n, w) =
      ((dynamic_retry_decorator func w).1,
       (calls + n, (dynamic_retry_decorator func w).2)) ∧
    (∀ e, (dynamic_retry_decorator func w).1 = Raise e → calls = 3).
Proof.
  rewrite (dynamic_retry_decorator_unfold (counted func)).
  rewrite (dynamic_retry_decorator_unfold func).
  unfold counted, backoff. cbn.
  destruct (func w) as [[r|e] w1]; cbn.
  { exists 1. split_and!; [lia..|done|done]. }
  destruct (func _) as [[r|e'] w2]; cbn.
  { exists 2. split_and!; [lia..|done|done]. }
  destruct (func _) as [[r|e''] w3]; cbn; exists 3; split_and!; first [lia | reflexivity | intros; reflexivity].
Qed.


(** C1: whenever some proxy of the pool is available, [get_proxy] returns
    the available proxy of least [lastUsed], the first one in the pool's
    iteration order among equals, and in the same step stamps it with the
    current time; nothing else changes. *)
Theorem get_proxy_least_recently_used (w : World) :
  (∃ proxy, proxy ∈ Dict.keys (proxies (pm w)) ∧
            is_available (banned_proxies (pm w)) (clock w) proxy = true) →
  ∃ before least last_used after,
    proxies (pm w) = before ++ (least, last_used) :: after ∧
    is_available (banned_proxies (pm w)) (clock w) least = true ∧
    (∀ q lq, (q, lq) ∈ before →
       is_available (banned_proxies (pm w)) (clock w) q = true → (last_used < lq)%Z) ∧
    (∀ q lq, (q, lq) ∈ after →
       is_available (banned_proxies (pm w)) (clock w) q = true → (last_used ≤ lq)%Z) ∧
    (Dict.wf (proxies (pm w)) → Dict.get least (proxies (pm w)) = Some last_used) ∧
    let w' := set_pm (set_proxies (Dict.set least (clock w) (proxies (pm w)))) w in
    get_proxy w = (Ok (Some (proxy_handle least, least)), w') ∧
    Dict.get least (proxies (pm w')) = Some (clock w) ∧
    (∀ q, q ≠ least → Dict.get q (proxies (pm w')) = Dict.get q (proxies (pm w))) ∧
    Dict.keys (proxies (pm w')) = Dict.keys (proxies (pm w)) ∧
    banned_proxies (pm w') = banned_proxies (pm w) ∧
    clock w' = clock w ∧ events w' = events w.
Proof.
  intros Hne%available_proxies_nonempty.
  destruct (get_proxy_body_selects w Hne)
    as (before & least & last_used & after & Hsplit & Hav & Hbefore & Hafter & Hbody).
  exists before, least, last_used, after. split_and!; try done.
  - intros Hwf. rewrite Hsplit in Hwf |- *. by apply dict_get_middle.
  - unfold get_proxy. rewrite dynamic_retry_decorator_unfold, Hbody.
    cbv zeta. split_and!; try done.
    + apply dict_get_set_eq.
    + intros q Hq. by apply dict_get_set_ne.
    + cbn [pm set_pm set_proxies proxies]. rewrite dict_keys_set.
      rewrite decide_True; [done|].
      unfold Dict.keys. rewrite Hsplit, fmap_app. set_solver.
Qed.

(** ** The dynamic delay *)

Lemma foldl_min_le (x : Z) (l : list Z) :
  (foldl Z.min x l ≤ x)%Z ∧ Forall (λ y, (foldl Z.min x l ≤ y)%Z) l.
Proof.
  revert x. induction l as [|y l IH]; intros x; cbn [foldl].
  - split; [lia | constructor].
  - destruct (IH (Z.min x y)) as [Hle Hall]. split; [lia|].
    constructor; [lia | done].
Qed.

Lemma foldl_min_elem (x : Z) (l : list Z) : foldl Z.min x l ∈ x :: l.
Proof.
  revert x. induction l as [|y l IH]; intros x; cbn [foldl].
  - apply list_elem_of_here.
  - specialize (IH (Z.min x y)). apply elem_of_cons in IH as [->|IH].
    + destruct (Z.min_spec x y) as [[_ ->]|[_ ->]]; set_solver.
    + set_solver.
Qed.

(** [min] of a non-empty list is its least element. *)
Lemma py_min_spec (l : list Z) (m : Z) :
  py_min l = Some m ↔ m ∈ l ∧ Forall (λ y, (m ≤ y)%Z) l.
Proof.
  destruct l as [|x l]; cbn [py_min].
  - split; [done | by intros [?%elem_of_nil _]].
  - pose proof (foldl_min_le x l) as [Hx Hl]. pose proof (foldl_min_elem x l) as Hin.
    split.
    + intros [= <-]. split; [done | by constructor].
    + intros [Hm Hall]. f_equal. rewrite Forall_forall in Hall.
      apply Hall in Hin. assert (Forall (λ y, (foldl Z.min x l ≤ y)%Z) (x :: l)) as Hall'
        by by constructor.
      rewrite Forall_forall in Hall'. apply Hall' in Hm. lia.
Qed.

Lemma py_min_None (l : list Z) : py_min l = None ↔ l = [].
Proof. by destruct l. Qed.

(** [get_dynamic_delay] through [py_min]: the minimum runs over every
    recorded unban time. *)
Lemma get_dynamic_delay_py_min self now :
  get_dynamic_delay self now =
    match py_min (map_to_list (banned_proxies self)).*2 with
    | None => 0%Z
    | Some earliest => Z.max 0 (earliest - now)
    end.
Proof. unfold get_dynamic_delay. by destruct (_.*2). Qed.

Lemma elem_of_ban_times (banned : gmap string Z) (until : Z) :
  until ∈ (map_to_list banned).*2 ↔ ∃ proxy, banned !! proxy = Some until.
Proof.
  rewrite list_elem_of_fmap. split.
  - intros ([p u] & -> & Hin%elem_of_map_to_list). by exists p.
  - intros [p Hp]. exists (p, until). split; [done|]. by apply elem_of_map_to_list.
Qed.

(** C2, the part that fails: with one ban run out and one in force the
    code returns 0, the specification's wording 190. *)
Lemma get_dynamic_delay_counts_expired_bans :
  get_dynamic_delay stale_ban_pool 10 = 0%Z ∧
  min_wait_until_unban stale_ban_pool 10 = 190%Z ∧
  get_dynamic_delay stale_ban_pool 10 ≠ min_wait_until_unban stale_ban_pool 10.
Proof. by vm_compute. Qed.

(** C2, amended: [get_dynamic_delay] returns 0 when no proxy is banned at
    [now]; otherwise it returns [max(0, earliest - now)] where [earliest]
    is the least unban time on record, bans that have run out included.
    So the result is 0 as soon as one recorded ban has run out, and it is
    the specification's value when every recorded ban is still in force. *)
Theorem get_dynamic_delay_earliest_recorded_ban (self : ProxyManager) (now : Z) :
  let bans := banned_proxies self in
  ((∀ proxy until, bans !! proxy = Some until → (until ≤ now)%Z) →
     get_dynamic_delay self now = 0%Z) ∧
  (bans ≠ ∅ →
     ∃ proxy earliest,
       bans !! proxy = Some earliest ∧
       (∀ proxy' until, bans !! proxy' = Some until → (earliest ≤ until)%Z) ∧
       get_dynamic_delay self now = Z.max 0 (earliest - now)) ∧
  ((∃ proxy until, bans !! proxy = Some until ∧ (until ≤ now)%Z) →
     get_dynamic_delay self now = 0%Z) ∧
  ((∀ proxy until, bans !! proxy = Some until → (now < until)%Z) →
     get_dynamic_delay self now = min_wait_until_unban self now).
Proof.
  intros bans.
  assert (bans ≠ ∅ →
     ∃ proxy earliest,
       bans !! proxy = Some earliest ∧
       (∀ proxy' until, bans !! proxy' = Some until → (earliest ≤ until)%Z) ∧
       get_dynamic_delay self now = Z.max 0 (earliest - now)) as Hmin.
  { intros Hne. rewrite get_dynamic_delay_py_min. fold bans.
    destruct (py_min (map_to_list bans).*2) as [earliest|] eqn:Hpy.
    - apply py_min_spec in Hpy as [[proxy Hp]%elem_of_ban_times Hall].
      exists proxy, earliest. split_and!; [done| |done].
      intros proxy' u Hp'. rewrite Forall_forall in Hall.
      apply Hall, elem_of_ban_times. by exists proxy'.
    - apply py_min_None, fmap_nil_inv, map_to_list_empty_iff in Hpy. done. }
  split_and!; [|done| |].
  - intros Hpast. destruct (decide (bans = ∅)) as [Hempty|Hne].
    + unfold get_dynamic_delay. fold bans. by rewrite Hempty, map_to_list_empty.
    + destruct (Hmin Hne) as (proxy & earliest & Hp & _ & ->).
      apply Hpast in Hp. lia.
  - intros (proxy & until & Hp & Hpast).
    destruct Hmin as (proxy0 & earliest & _ & Hleast & ->).
    { intros Hempty. by rewrite Hempty, lookup_empty in Hp. }
    apply Hleast in Hp. lia.
  - intros Hfuture. unfold min_wait_until_unban, bans_in_force.
    rewrite get_dynamic_delay_py_min. fold bans.
    replace (filter (λ until, (now < until)%Z) (map_to_list bans).*2)
      with (map_to_list bans).*2; [done|].
    symmetry. apply filter_all. apply Forall_forall.
    intros u [proxy Hp]%elem_of_ban_times. by eapply Hfuture.
Qed.

(** ** Bans *)

Lemma dict_mem_keys {V} (k : string) (d : Dict.t V) :
  Dict.mem k d = true ↔ k ∈ Dict.keys d.
Proof.
  unfold Dict.mem. destruct (Dict.get k d) eqn:Hget.
  - split; [intros _ | done].
    destruct (decide (k ∈ Dict.keys d)) as [|Hnot]; [done|].
    apply dict_get_None in Hnot. congruence.
  - apply dict_get_None in Hget. split; [done | by intros ?].
Qed.

Lemma eligible_spec self now proxy :
  eligible self now proxy = true ↔
  proxy ∈ Dict.keys (proxies self) ∧ is_available (banned_proxies self) now proxy = true.
Proof.
  unfold eligible, available_proxies. rewrite dict_mem_keys. unfold Dict.keys.
  rewrite !list_elem_of_fmap. split.
  - intros ([k v] & -> & [Hav Hin]%list_elem_of_filter). split; [|done]. by exists (k, v).
  - intros [([k v] & -> & Hin) Hav]. exists (k, v). split; [done|].
    by apply list_elem_of_filter.
Qed.

(** The two ways the body of [get_proxy] can go. *)
Lemma get_proxy_body_cases (w : World) :
  (available_proxies (pm w) (clock w) = [] ∧
   get_proxy_body w =
     (Raise (ValueError "No available proxies, retrying..."),
      logging ERROR (MsgNoAvailable (get_dynamic_delay (pm w) (clock w))) w)) ∨
  (∃ least,
     eligible (pm w) (clock w) least = true ∧
     get_proxy_body w =
       (Ok (proxy_handle least, least),
        set_pm (set_proxies (Dict.set least (clock w) (proxies (pm w)))) w)).
Proof.
  destruct (decide (available_proxies (pm w) (clock w) = [])) as [Hnil|Hne].
  - left. split; [done|]. unfold get_proxy_body. by rewrite bool_decide_eq_true_2.
  - right. destruct (get_proxy_body_selects w Hne)
      as (before & least & last_used & after & Hsplit & Hav & _ & _ & Hbody).
    exists least. split; [|done]. apply eligible_spec. split; [|done].
    unfold Dict.keys. rewrite Hsplit, fmap_app. set_solver.
Qed.

(** C3, the part that fails: a proxy banned at time 0 is still passed over
    at the instant 180, where the claim has it eligible again. *)
Lemma banned_proxy_ineligible_at_expiry :
  banned_proxies single_pool_banned !! "a" = Some 180%Z ∧
  eligible single_pool_banned 180 "a" = false ∧
  (get_proxy_body (world_of single_pool_banned 180)).1 =
    Raise (ValueError "No available proxies, retrying...") ∧
  eligible single_pool_banned 181 "a" = true.
Proof. by vm_compute. Qed.

(** C3, amended: [ban_proxy] at time [T] records the unban time [T + 180];
    from then on the proxy is passed over by the selection at every instant
    up to and including [T + 180], and a proxy of the pool is a candidate
    again at every instant after [T + 180]. *)
Theorem ban_proxy_cooldown (proxy : string) (w : World) :
  let T := clock w in
  let self := pm (ban_proxy proxy w).2 in
  banned_proxies self !! proxy = Some (T + 180)%Z ∧
  proxies self = proxies (pm w) ∧
  (∀ t, is_available (banned_proxies self) t proxy = bool_decide (T + 180 < t)%Z) ∧
  (∀ t, (t ≤ T + 180)%Z →
     eligible self t proxy = false ∧
     ∀ v h v', pm v = self → clock v = t → get_proxy_body v ≠ (Ok (h, proxy), v')) ∧
  (∀ t, (T + 180 < t)%Z →
     proxy ∈ Dict.keys (proxies (pm w)) → eligible self t proxy = true).
Proof.
  intros T self.
  assert (banned_proxies self !! proxy = Some (T + 180)%Z) as Hban
    by apply lookup_insert_eq.
  assert (∀ t, is_available (banned_proxies self) t proxy = bool_decide (T + 180 < t)%Z)
    as Hav by (intros t; unfold is_available; by rewrite Hban).
  assert (∀ t, (t ≤ T + 180)%Z → eligible self t proxy = false) as Hinel.
  { intros t Ht. apply not_true_is_false. intros [_ Hel]%eligible_spec.
    rewrite Hav in Hel. apply bool_decide_eq_true in Hel. lia. }
  split_and!; [done|done|done| |].
  - intros t Ht. split; [by apply Hinel|].
    intros v h v' Hpm Hclock Hbody.
    destruct (get_proxy_body_cases v) as [[_ Hraise]|(least & Hel & Hok)].
    + congruence.
    + rewrite Hok in Hbody. injection Hbody as _ -> _.
      rewrite Hpm, Hclock, Hinel in Hel by done. done.
  - intros t Ht Hin. apply eligible_spec. split; [done|].
    rewrite Hav. by apply bool_decide_eq_true.
Qed.

(** ** The error path of [get_proxy] *)

Lemma get_proxy_body_raise (w w' : World) (e : Exn) :
  get_proxy_body w = (Raise e, w') →
  e = ValueError "No available proxies, retrying..." ∧
  w' = logging ERROR (MsgNoAvailable (get_dynamic_delay (pm w) (clock w))) w.
Proof.
  intros Hbody. destruct (get_proxy_body_cases w) as [[_ Hraise]|(least & _ & Hok)].
  - rewrite Hraise in Hbody. by injection Hbody as <- <-.
  - congruence.
Qed.

Lemma overrun_nonneg (w : World) : (0 ≤ overrun w)%Z.
Proof. unfold overrun. lia. Qed.

(** Only the body of [get_proxy] touches the manager: logging and sleeping
    leave it as it is. The sleep lasts the delay and what it overruns. *)
Lemma backoff_world (tries : nat) (w : World) :
  let delay := get_dynamic_delay (pm w) (clock w) in
  pm (backoff tries w) = pm w ∧
  clock (backoff tries w) = (clock w + delay + overrun w)%Z ∧
  (clock w + delay ≤ clock (backoff tries w))%Z ∧
  events (backoff tries w) =
    events w ++ [EvLog INFO (MsgAttemptFailed tries delay); EvSleep delay] ∧
  disk (backoff tries w) = disk w ∧ saved (backoff tries w) = saved w.
Proof.
  cbn. rewrite <- app_assoc. split_and!; try done.
  unfold overrun. cbn. lia.
Qed.

(** A [get_proxy] that raises went through three failed tries and two
    pauses. *)
Lemma get_proxy_raise (w w' : World) (e : Exn) :
  get_proxy w = (Raise e, w') →
  ∃ w1 w2,
    get_proxy_body w = (Raise e, w1) ∧
    get_proxy_body (backoff 1 w1) = (Raise e, w2) ∧
    get_proxy_body (backoff 2 w2) = (Raise e, w').
Proof.
  unfold get_proxy. rewrite dynamic_retry_decorator_unfold.
  destruct (get_proxy_body w) as [[r|e1] w1] eqn:H1; [done|].
  destruct (get_proxy_body (backoff 1 w1)) as [[r|e2] w2] eqn:H2; [done|].
  destruct (get_proxy_body (backoff 2 w2)) as [[r|e3] w3] eqn:H3; [done|].
  intros [= <- <-]. exists w1, w2.
  apply get_proxy_body_raise in H1 as [-> _].
  pose proof H2 as [-> _]%get_proxy_body_raise.
  pose proof H3 as [-> _]%get_proxy_body_raise. done.
Qed.

(** C9: a [get_proxy] that fails raises "No available proxies" and leaves
    the manager as it found it: no [lastUsed] stamp and no ban entry
    changes, in the body and through the three tries of the decorator. *)
Theorem failed_get_proxy_leaves_pool (w w' : World) (e : Exn) :
  get_proxy w = (Raise e, w') →
  e = ValueError "No available proxies, retrying..." ∧
  pm w' = pm w ∧
  (∀ v v' e', get_proxy_body v = (Raise e', v') → pm v' = pm v ∧ clock v' = clock v).
Proof.
  intros (w1 & w2 & H1 & H2 & H3)%get_proxy_raise.
  apply get_proxy_body_raise in H1 as [-> ->].
  apply get_proxy_body_raise in H2 as [_ ->].
  apply get_proxy_body_raise in H3 as [_ ->].
  split_and!; [done|done|].
  intros v v' e' [_ ->]%get_proxy_body_raise. done.
Qed.

Lemma failed_get_proxy_leaves_pool_witness :
  pm (get_proxy (world_of single_pool_banned 0)).2 = single_pool_banned.
Proof.
  refine (proj1 (proj2 (failed_get_proxy_leaves_pool
    (world_of single_pool_banned 0) _
    (ValueError "No available proxies, retrying...") _))).
  vm_compute. reflexivity.
Defined.

Lemma get_proxy_least_recently_used_witness :
  ∃ before last_used after,
    proxies tie_pool = before ++ ("c", last_used) :: after ∧
    get_proxy (world_of tie_pool 10) =
      (Ok (Some (proxy_handle "c", "c")),
       set_pm (set_proxies (Dict.set "c" 10%Z (proxies tie_pool))) (world_of tie_pool 10)).
Proof.
  destruct (get_proxy_least_recently_used (world_of tie_pool 10))
    as (before & least & last_used & after & Hsplit & _ & _ & _ & _ & Hrun).
  { exists "a". split; [apply list_elem_of_here | by vm_compute]. }
  cbv zeta in Hrun. destruct Hrun as [Hrun _].
  assert (least = "c") as ->.
  { assert ((get_proxy (world_of tie_pool 10)).1 = Ok (Some (proxy_handle "c", "c")))
      as Hc by by vm_compute.
    rewrite Hrun in Hc. cbn [fst] in Hc. congruence. }
  exists before, last_used, after. split; [exact Hsplit | exact Hrun].
Defined.

(** ** Loading the proxies *)

Lemma parse_proxies_blank (lines : list string) :
  Forall (λ line, strip line = EmptyString) lines → parse_proxies lines = [].
Proof.
  intros Hblank. unfold parse_proxies. rewrite filter_none; [done|].
  eapply Forall_impl; [exact Hblank|]. naive_solver.
Qed.

(** White space beyond ASCII is stripped as well: a line of U+00A0 alone is
    blank, and a proxy between Unicode blanks is the proxy. *)
Lemma parse_proxies_unicode_blanks :
  strip (nbsp +:+ lf) = EmptyString ∧
  strip (em_space +:+ "10.0.0.1:8080" +:+ nbsp +:+ lf) = "10.0.0.1:8080" ∧
  strip ("10.0.0.1" +:+ nbsp +:+ ":8080") = "10.0.0.1" +:+ nbsp +:+ ":8080" ∧
  parse_proxies [nbsp +:+ lf; "y" +:+ nbsp +:+ lf] = [("y", 0%Z)].
Proof. by vm_compute. Qed.

(** C7: when the proxy file is missing, or holds no line with anything but
    white space, [read_proxies] returns [False], and [main], which reads
    [proxies.txt], returns without handing a task to the executor. *)
Theorem no_proxies_no_dispatch (file_name : string) (cpu_count : Z) (w : World) :
  no_proxy_source file_name w →
  (read_proxies file_name w).1 = Ok false ∧
  (file_name = "proxies.txt" →
     (main cpu_count w).1 = Ok NoDispatch ∧
     ∀ max_threads tasks, (main cpu_count w).1 ≠ Ok (Submitted max_threads tasks)).
Proof.
  unfold no_proxy_source. intros Hsrc.
  assert ((read_proxies file_name w).1 = Ok false) as Hread.
  { unfold read_proxies. destruct (disk w !! file_name) as [lines|]; [|done].
    cbn [set_pm pm set_proxies proxies]. by rewrite parse_proxies_blank. }
  split; [done|]. intros ->.
  assert ((main cpu_count w).1 = Ok NoDispatch) as Hmain.
  { unfold main, mbind, M_bind, exec. unfold read_proxies in *.
    cbn [set_pm disk] in *.
    destruct (disk w !! "proxies.txt") as [lines|]; [|done].
    cbn [set_pm pm set_proxies proxies] in *. by rewrite parse_proxies_blank. }
  split; [done|]. intros max_threads tasks. by rewrite Hmain.
Qed.

Lemma no_proxies_no_dispatch_witness :
  (read_proxies "proxies.txt" (world_of new_manager 0)).1 = Ok false ∧
  (main 8 (world_of new_manager 0)).1 = Ok NoDispatch ∧
  (main 8 (world_with_file "proxies.txt" [" " +:+ String "010" EmptyString])).1
    = Ok NoDispatch.
Proof.
  split_and!.
  - refine (proj1 (no_proxies_no_dispatch "proxies.txt" 8 (world_of new_manager 0) _)).
    by vm_compute.
  - refine (proj1 (proj2 (no_proxies_no_dispatch "proxies.txt" 8
                            (world_of new_manager 0) _) eq_refl)).
    by vm_compute.
  - refine (proj1 (proj2 (no_proxies_no_dispatch "proxies.txt" 8
             (world_with_file "proxies.txt" [" " +:+ String "010" EmptyString]) _) eq_refl)).
    vm_compute. by repeat constructor.
Defined.

(** C10: from a readable file [read_proxies] builds a pool whose keys are
    the stripped non-blank lines, each once however often the line
    occurs, every one with [lastUsed = 0]; the ban table is not touched. *)
Theorem read_proxies_builds_pool (file_name : string) (lines : list string) (w : World) :
  disk w !! file_name = Some lines →
  let w' := (read_proxies file_name w).2 in
  let pool := proxies (pm w') in
  Dict.wf pool ∧
  (∀ k, k ∈ Dict.keys pool ↔ k ≠ EmptyString ∧ ∃ line, line ∈ lines ∧ strip line = k) ∧
  (∀ k, k ∈ Dict.keys pool → Dict.get k pool = Some 0%Z) ∧
  banned_proxies (pm w') = banned_proxies (pm w) ∧
  (read_proxies file_name w).1 = Ok (bool_decide (pool ≠ [])).
Proof.
  intros Hfile w' pool.
  assert (pool = parse_proxies lines) as Hpool.
  { unfold pool, w', read_proxies. rewrite Hfile. by case_bool_decide. }
  assert (∀ k, k ∈ Dict.keys pool ↔
               k ≠ EmptyString ∧ ∃ line, line ∈ lines ∧ strip line = k) as Hkeys.
  { intros k. rewrite Hpool. unfold parse_proxies.
    rewrite dict_comprehension_keys, <- list_fmap_compose, list_elem_of_fmap.
    split.
    - intros (line & -> & [Hne Hin]%list_elem_of_filter). split; [done|]. by exists line.
    - intros (Hne & line & Hin & <-). exists line. split; [done|].
      by apply list_elem_of_filter. }
  split_and!; [| done | | |].
  - rewrite Hpool. apply dict_comprehension_wf.
  - intros k Hk. rewrite Hpool in Hk |- *. unfold parse_proxies in *.
    apply dict_comprehension_const.
    + apply Forall_fmap, Forall_forall. done.
    + by apply dict_comprehension_keys.
  - unfold w', read_proxies. rewrite Hfile. by case_bool_decide.
  - unfold pool, w', read_proxies. rewrite Hfile. cbn [set_pm pm set_proxies proxies].
    case_bool_decide as Hnil; cbn [set_pm pm set_proxies proxies logging world_host emit].
    + by rewrite bool_decide_eq_false_2 by (by intros ?).
    + by rewrite bool_decide_eq_true_2.
Qed.

Lemma read_proxies_builds_pool_witness :
  proxies (pm (read_proxies "proxies.txt" (world_with_file "proxies.txt" proxy_file)).2)
    = [("10.0.0.1:8080", 0%Z); ("10.0.0.2:8080", 0%Z)] ∧
  Dict.wf (proxies (pm (read_proxies "proxies.txt"
                          (world_with_file "proxies.txt" proxy_file)).2)).
Proof.
  split; [by vm_compute|].
  refine (proj1 (read_proxies_builds_pool "proxies.txt" proxy_file
                   (world_with_file "proxies.txt" proxy_file) _)).
  by vm_compute.
Defined.

(** ** The inner retry loop around the acquisition *)

(** C5: the decorator calls the function at most three times. After the
    first and after the second failure it computes the delay from the
    manager and the clock as the failed call left them, logs, and sleeps
    for that delay before the next call; the third failure is raised to
    the caller from the world the call left, with no pause after it. *)
Theorem acquisition_retried_with_fresh_backoff
    {W} `{Host W} {A} (func : M W A) (w : W) :
  (∃ calls,
     1 ≤ calls ≤ 3 ∧
     dynamic_retry_decorator (counted func) (0, w) =
       ((dynamic_retry_decorator func w).1,
        (calls, (dynamic_retry_decorator func w).2)) ∧
     (∀ e, (dynamic_retry_decorator func w).1 = Raise e → calls = 3)) ∧
  dynamic_retry_decorator func w =
    match func w with
    | (Ok r, w1) => (Ok (Some r), w1)
    | (Raise _, w1) =>
        match func (backoff 1 w1) with
        | (Ok r, w2) => (Ok (Some r), w2)
        | (Raise _, w2) =>
            match func (backoff 2 w2) with
            | (Ok r, w3) => (Ok (Some r), w3)
            | (Raise e, w3) => (Raise e, w3)
            end
        end
    end ∧
  (∀ tries v,
     backoff tries v =
       time_sleep (get_dynamic_delay (self_manager v) (time_time v))
         (logging INFO
            (MsgAttemptFailed tries (get_dynamic_delay (self_manager v) (time_time v))) v)) ∧
  (∀ tries (v : World),
     let delay := get_dynamic_delay (pm v) (clock v) in
     pm (backoff tries v) = pm v ∧
     clock (backoff tries v) = (clock v + delay + overrun v)%Z ∧
     (clock v + delay ≤ clock (backoff tries v))%Z ∧
     events (backoff tries v) =
       events v ++ [EvLog INFO (MsgAttemptFailed tries delay); EvSleep delay]) ∧
  (∀ fuel, 3 ≤ fuel → retry_loop func fuel 0 w = dynamic_retry_decorator func w).
Proof.
  split_and!.
  - destruct (dynamic_retry_decorator_counted func w 0) as (calls & ? & Heq & ?).
    exists calls. by rewrite Nat.add_0_r in Heq.
  - apply dynamic_retry_decorator_unfold.
  - done.
  - intros tries v. pose proof (backoff_world tries v) as Hb. cbv zeta in Hb.
    cbv zeta. naive_solver.
  - intros fuel Hfuel. unfold dynamic_retry_decorator.
    rewrite (retry_loop_fuel func fuel 0 w) by (unfold max_tries; lia). done.
Qed.

(** ** The failure tracker *)

Lemma report_record_failure search_value attempt e now tr :
  report search_value (record_failure search_value attempt e now tr) =
    report search_value tr ++
      [{| attempt := attempt; timestamp := now; error := str e |}].
Proof.
  unfold report, record_failure. cbn [failed_searches].
  destruct (failed_searches tr !! search_value) as [l|] eqn:Hl.
  - rewrite decide_False by done. by rewrite lookup_alter_eq, Hl.
  - rewrite decide_True by done. by rewrite lookup_alter_eq, lookup_insert_eq.
Qed.

Lemma report_record_failure_other search_value other attempt e now tr :
  other ≠ search_value →
  report other (record_failure search_value attempt e now tr) = report other tr.
Proof.
  intros Hne. unfold report, record_failure. cbn [failed_searches].
  rewrite lookup_alter_ne by done. case_decide; [|done].
  by rewrite lookup_insert_ne.
Qed.

Lemma foldl_logging_counted {W} `{Host W} (l : list Failure) (c : nat) (w : W) :
  foldl (λ (cw : nat * W) failure, (cw.1, logging ERROR (MsgFailure failure) cw.2))
        (c, w) l =
    (c, foldl (λ w failure, logging ERROR (MsgFailure failure) w) w l).
Proof. revert w. induction l as [|f l IH]; intros w; [done|]. cbn. apply IH. Qed.

(** ** The outer retry loop *)

(** One turn of the [for] loop. *)
Lemma attempt_loop_cons {W} `{Host W} {A} (tries : nat) (func : string → M W A)
    (search_value : string) (attempt : nat) (attempts : list nat)
    (retry_tracker : RetryTracker) (w : W) :
  attempt_loop tries func search_value (attempt :: attempts) (retry_tracker, w) =
    match func search_value w with
    | (Ok r, w) => (Ok (Some r), (retry_tracker, w))
    | (Raise e, w) =>
        let retry_tracker :=
          record_failure search_value (attempt + 1) e (time_time w) retry_tracker in
        if bool_decide (attempt = tries) then
          (Raise e,
           (retry_tracker,
            foldl (λ w failure, logging ERROR (MsgFailure failure) w)
              (logging ERROR MsgFailureHistory
                 (logging ERROR (MsgAllFailed (tries + 1) search_value) w))
              (report search_value retry_tracker)))
        else
          attempt_loop tries func search_value attempts
            (retry_tracker,
             logging WARNING (MsgRetrying (attempt + 1) (tries + 1) search_value) w)
    end.
Proof. reflexivity. Qed.

Lemma attempt_loop_always_failing
    {W} `{Host W} {A} (tries : nat) (func : string → M W A) (search_value : string) :
  (∀ w, ∃ e w', func search_value w = (Raise e, w')) →
  ∀ n a tr c w,
    a + n = tries →
    ∃ e tr' w' records,
      attempt_loop tries func search_value (seq a (S n)) (tr, w) = (Raise e, (tr', w')) ∧
      attempt_loop tries (λ sv, counted (func sv)) search_value (seq a (S n)) (tr, (c, w))
        = (Raise e, (tr', (c + S n, w'))) ∧
      report search_value tr' = report search_value tr ++ records ∧
      attempt <$> records = seq (a + 1) (S n) ∧
      error <$> last records = Some (str e) ∧
      (∀ other, other ≠ search_value → report other tr' = report other tr).
Proof.
  intros Hfail n. induction n as [|n IH]; intros a tr c w Han.
  - destruct (Hfail w) as (e & w1 & Hf).
    cbn [seq]. rewrite !attempt_loop_cons. unfold counted. cbn [snd fst]. rewrite Hf.
    cbv zeta. rewrite !bool_decide_eq_true_2 by lia.
    eexists e, _, _, [_]. split_and!.
    + reflexivity.
    + cbn [time_time counting_host snd logging fst].
      rewrite foldl_logging_counted. by rewrite (Nat.add_1_r c).
    + apply report_record_failure.
    + done.
    + done.
    + intros other Hne. by apply report_record_failure_other.
  - destruct (Hfail w) as (e1 & w1 & Hf).
    change (seq a (S (S n))) with (a :: seq (S a) (S n)).
    rewrite !attempt_loop_cons. unfold counted at 1. cbn [snd fst]. rewrite Hf.
    cbv zeta. rewrite !bool_decide_eq_false_2 by lia.
    cbn [time_time counting_host snd logging fst].
    edestruct (IH (S a) (record_failure search_value (a + 1) e1 (time_time w1) tr) (S c)
                 (logging WARNING (MsgRetrying (a + 1) (tries + 1) search_value) w1))
      as (e & tr' & w' & records & Hrun & Hcount & Hrep & Hatt & Hlast & Hother); [lia|].
    exists e, tr', w',
      ({| attempt := a + 1; timestamp := time_time w1; error := str e1 |} :: records).
    split_and!.
    + exact Hrun.
    + rewrite Hcount. by replace (S c + S n) with (c + S (S n)) by lia.
    + rewrite Hrep, report_record_failure. by rewrite <- app_assoc.
    + cbn [fmap list_fmap attempt]. rewrite Hatt. by rewrite cons_seq.
    + rewrite last_cons. destruct (last records); [done|]. done.
    + intros other Hne. rewrite Hother by done. by apply report_record_failure_other.
Qed.

(** C4: a task whose body fails at every call is executed 11 times by
    [retry_with_tracking(tries=10)]: the call counter ends at 11, the
    tracker gains 11 records for the task, numbered 1 to 11 in the order
    of the attempts, and the error of the last attempt is raised to the
    caller. A task the tracker has not seen before ends with exactly
    these 11 records. *)
Theorem always_failing_task_tried_eleven_times
    {W} `{Host W} {A} (func : string → M W A) (search_value : string)
    (retry_tracker : RetryTracker) (w : W) :
  (∀ w, ∃ e w', func search_value w = (Raise e, w')) →
  ∃ e retry_tracker' w' records,
    retry_with_tracking 10 func search_value (retry_tracker, w) =
      (Raise e, (retry_tracker', w')) ∧
    retry_with_tracking 10 (λ sv, counted (func sv)) search_value (retry_tracker, (0, w)) =
      (Raise e, (retry_tracker', (11, w'))) ∧
    report search_value retry_tracker' = report search_value retry_tracker ++ records ∧
    length records = 11 ∧
    attempt <$> records = [1; 2; 3; 4; 5; 6; 7; 8; 9; 10; 11] ∧
    error <$> last records = Some (str e) ∧
    (report search_value retry_tracker = [] →
       report search_value retry_tracker' = records) ∧
    (∀ other, other ≠ search_value →
       report other retry_tracker' = report other retry_tracker).
Proof.
  intros Hfail.
  destruct (attempt_loop_always_failing 10 func search_value Hfail 10 0 retry_tracker 0 w)
    as (e & tr' & w' & records & Hrun & Hcount & Hrep & Hatt & Hlast & Hother); [done|].
  exists e, tr', w', records. split_and!; try done.
  - apply (f_equal length) in Hatt. by rewrite length_fmap in Hatt.
  - intros Hnil. by rewrite Hrep, Hnil.
Qed.

Lemma always_failing_task_tried_eleven_times_witness :
  ∃ e retry_tracker' w',
    retry_with_tracking 10 (λ sv, counted (failing_task sv)) "q"
      (new_tracker, (0, world_of single_pool 0)) = (Raise e, (retry_tracker', (11, w'))) ∧
    length (report "q" retry_tracker') = 11.
Proof.
  destruct (always_failing_task_tried_eleven_times failing_task "q" new_tracker
              (world_of single_pool 0))
    as (e & tr' & w' & records & _ & Hcount & _ & Hlen & _ & _ & Hfresh & _).
  { intros w. by exists (RequestException "connection refused"), w. }
  exists e, tr', w'. split; [exact Hcount|].
  rewrite Hfresh; [exact Hlen | reflexivity].
Defined.

(** ** The two loops together *)

Section ScraperFacts.
Variable requests_get : Handle → World → outcome string.
Variable requests_post : string → string → string → Handle → World → outcome Response.
Variable client_id_match client_secret_match : string → option string.
Variable py_repr : string → string.
Variable file_error : string → World → option Exn.

#[local] Abbreviation body :=
  (get_serp_results_body requests_get requests_post client_id_match client_secret_match
     py_repr file_error).

(** Without a proxy the task body stops at the first statement. *)
Lemma get_serp_results_body_no_proxy search_value (w w' : World) (e : Exn) :
  get_proxy w = (Raise e, w') → body search_value w = (Raise e, w').
Proof.
  intros Hget. unfold get_serp_results_body, mbind, M_bind. by rewrite Hget.
Qed.


(** C6: when [get_proxy] has used up its three tries, the task body
    fails with that error without going further, and the turn of the
    outer loop that called it records one failure, under its own
    attempt number, and moves on to the next attempt (or, on the last
    one, raises): three calls of the acquisition, one outer attempt, one
    record. *)
Theorem exhausted_acquisition_is_one_outer_failure
    (search_value : string) (attempt : nat) (attempts : list nat)
    (retry_tracker : RetryTracker) (w w' : World) (e : Exn) :
  get_proxy w = (Raise e, w') →
  dynamic_retry_decorator (counted get_proxy_body) (0, w) = (Raise e, (3, w')) ∧
  body search_value w = (Raise e, w') ∧
  let retry_tracker' :=
    record_failure search_value (attempt + 1) e (clock w') retry_tracker in
  report search_value retry_tracker' =
    report search_value retry_tracker ++
      [{| attempt := attempt + 1; timestamp := clock w';
          error := "No available proxies, retrying..." |}] ∧
  length (report search_value retry_tracker') =
    length (report search_value retry_tracker) + 1 ∧
  attempt_loop 10 body search_value (attempt :: attempts) (retry_tracker, w) =
    if bool_decide (attempt = 10) then
      (Raise e,
       (retry_tracker',
        foldl (λ w failure, logging ERROR (MsgFailure failure) w)
          (logging ERROR MsgFailureHistory
             (logging ERROR (MsgAllFailed 11 search_value) w'))
          (report search_value retry_tracker')))
    else
      attempt_loop 10 body search_value attempts
        (retry_tracker', logging WARNING (MsgRetrying (attempt + 1) 11 search_value) w').
Proof.
  intros Hget.
  pose proof (failed_get_proxy_leaves_pool w w' e Hget) as [He _].
  split_and!.
  - destruct (dynamic_retry_decorator_counted get_proxy_body w 0)
      as (calls & _ & Heq & Hcalls).
    fold get_proxy in Heq, Hcalls. rewrite Hget in Heq, Hcalls.
    rewrite Heq. cbn [fst snd]. rewrite (Hcalls e) by done. done.
  - by apply get_serp_results_body_no_proxy.
  - cbv zeta. split_and!.
    + rewrite report_record_failure. by rewrite He.
    + rewrite report_record_failure, length_app. done.
    + rewrite attempt_loop_cons.
      by rewrite (get_serp_results_body_no_proxy search_value w w' e Hget).
Qed.
End ScraperFacts.

Lemma exhausted_acquisition_is_one_outer_failure_witness :
  dynamic_retry_decorator (counted get_proxy_body) (0, world_of single_pool_banned 0) =
    (Raise (ValueError "No available proxies, retrying..."),
     (3, (get_proxy (world_of single_pool_banned 0)).2)) ∧
  get_serp_results_body key_page captcha_page find_client_id find_client_secret
      quoted writable "q"
    (world_of single_pool_banned 0) =
    (Raise (ValueError "No available proxies, retrying..."),
     (get_proxy (world_of single_pool_banned 0)).2).
Proof.
  pose proof (exhausted_acquisition_is_one_outer_failure
    key_page captcha_page find_client_id find_client_secret quoted writable
    "q" 0 [] new_tracker
    (world_of single_pool_banned 0) (get_proxy (world_of single_pool_banned 0)).2
    (ValueError "No available proxies, retrying...")) as Hone.
  destruct Hone as (Hcalls & Hbody & _).
  - vm_compute. reflexivity.
  - split; [exact Hcalls | exact Hbody].
Defined.

(** ** A response that is not JSON *)

(** The sibling path: an answer that is JSON but no object does ban the
    proxy of the attempt before the error is raised. *)
Lemma json_list_response_bans_proxy :
  let run :=
    get_serp_results_body key_page json_list find_client_id find_client_secret
      quoted writable "q"
      (world_of single_pool 100) in
  run.1 = Raise (ValueError "Unexpected response format, retrying...") ∧
  banned_proxies (pm run.2) !! "a" = Some 280%Z.
Proof. by vm_compute. Qed.

(** C8, evaluated where it fails: the search request is answered through
    proxy [a] with an HTML page. [response.json()] raises before the
    [isinstance] test is reached, so the attempt fails with the decoding
    error and proxy [a], used for it, is not banned. *)
Theorem non_json_response_leaves_proxy_unbanned :
  let run :=
    get_serp_results_body key_page captcha_page find_client_id find_client_secret
      quoted writable "q"
      (world_of single_pool 100) in
  run.1 = Raise (JSONDecodeError "Expecting value") ∧
  proxies (pm run.2) = [("a", 100%Z)] ∧
  banned_proxies (pm run.2) !! "a" = None ∧
  eligible (pm run.2) 100 "a" = true.
Proof. by vm_compute. Qed.

(** * Further properties of the code *)

(** ** [update_proxy] and [ban_proxy] *)

Lemma dict_keys_set_known {V} (k : string) (v : V) (d : Dict.t V) :
  k ∈ Dict.keys d → Dict.keys (Dict.set k v d) = Dict.keys d.
Proof. intros Hin. rewrite dict_keys_set. by rewrite decide_True. Qed.

(** X1: [update_proxy] stamps a proxy of the pool with the current time and
    leaves the order of the pool, the other stamps and the bans alone; for
    a name that is not in the pool it does nothing at all, not even log. *)
Theorem update_proxy_touches_known_proxy (proxy : string) (w : World) :
  let w' := (update_proxy proxy w).2 in
  (update_proxy proxy w).1 = Ok () ∧
  (proxy ∉ Dict.keys (proxies (pm w)) → w' = w) ∧
  (proxy ∈ Dict.keys (proxies (pm w)) →
     Dict.get proxy (proxies (pm w')) = Some (clock w) ∧
     events w' = events w ++ [EvLog INFO (MsgUpdated proxy)]) ∧
  (∀ q, q ≠ proxy → Dict.get q (proxies (pm w')) = Dict.get q (proxies (pm w))) ∧
  Dict.keys (proxies (pm w')) = Dict.keys (proxies (pm w)) ∧
  banned_proxies (pm w') = banned_proxies (pm w) ∧
  clock w' = clock w.
Proof.
  cbv zeta. unfold update_proxy.
  destruct (Dict.mem proxy (proxies (pm w))) eqn:Hmem.
  - apply dict_mem_keys in Hmem. cbn [fst snd]. split_and!; try done.
    + intros _. split; [apply dict_get_set_eq | done].
    + intros q Hq. by apply dict_get_set_ne.
    + by apply dict_keys_set_known.
  - assert (proxy ∉ Dict.keys (proxies (pm w))) as Hnot.
    { intros Hin%dict_mem_keys. congruence. }
    cbn [fst snd]. split_and!; done.
Qed.

(** X2: [ban_proxy] asks no question about its argument: whatever the name,
    known to the pool or not, its unban time becomes [now + 180], a later
    ban replacing an earlier one; no other ban and no stamp changes; and
    from then on the dynamic delay is at most what is left of this ban. *)
Theorem ban_proxy_records_any_name (proxy : string) (w : World) :
  let w' := (ban_proxy proxy w).2 in
  (ban_proxy proxy w).1 = Ok () ∧
  banned_proxies (pm w') !! proxy = Some (clock w + 180)%Z ∧
  (∀ q, q ≠ proxy → banned_proxies (pm w') !! q = banned_proxies (pm w) !! q) ∧
  proxies (pm w') = proxies (pm w) ∧
  clock w' = clock w ∧
  (∀ now, (0 ≤ get_dynamic_delay (pm w') now ≤ Z.max 0 (clock w + 180 - now))%Z).
Proof.
  cbv zeta. unfold ban_proxy. cbn [fst snd pm set_pm set_banned banned_proxies
    proxies logging world_host emit clock].
  split_and!; try done.
  - apply lookup_insert_eq.
  - intros q Hq. by apply lookup_insert_ne.
  - intros now. rewrite get_dynamic_delay_py_min. cbn [banned_proxies].
    destruct (py_min _) as [earliest|] eqn:Hmin; [|lia].
    apply py_min_spec in Hmin as [_ Hall]. rewrite Forall_forall in Hall.
    assert (earliest ≤ clock w + 180)%Z; [|lia].
    apply Hall, elem_of_ban_times. exists proxy. apply lookup_insert_eq.
Qed.

(** ** The pool keeps its proxies *)

(** The body of [get_proxy] changes stamps only. *)
Lemma get_proxy_body_shape (w : World) :
  Dict.keys (proxies (pm (get_proxy_body w).2)) = Dict.keys (proxies (pm w)) ∧
  banned_proxies (pm (get_proxy_body w).2) = banned_proxies (pm w) ∧
  clock (get_proxy_body w).2 = clock w.
Proof.
  destruct (get_proxy_body_cases w) as [[_ ->]|(least & [Hin _]%eligible_spec & ->)].
  - done.
  - cbn [snd pm set_pm set_proxies proxies banned_proxies clock].
    split_and!; [|done..]. by apply dict_keys_set_known.
Qed.

Lemma backoff_shape (tries : nat) (w : World) :
  pm (backoff tries w) = pm w ∧ (clock w ≤ clock (backoff tries w))%Z.
Proof.
  split; [done|].
  pose proof (backoff_world tries w) as (_ & Hclock & _). cbv zeta in Hclock.
  pose proof (overrun_nonneg w). rewrite Hclock, get_dynamic_delay_py_min.
  destruct (py_min _); lia.
Qed.

(** X3: no operation of the manager adds a proxy to the pool, drops one or
    reorders them: after [get_proxy] (however it ends), [update_proxy] and
    [ban_proxy] the pool has the keys it had, in the same order, and
    [get_proxy] and [update_proxy] leave the ban table as it was. *)
Theorem pool_keys_never_change (proxy : string) (w : World) :
  Dict.keys (proxies (pm (get_proxy w).2)) = Dict.keys (proxies (pm w)) ∧
  banned_proxies (pm (get_proxy w).2) = banned_proxies (pm w) ∧
  (clock w ≤ clock (get_proxy w).2)%Z ∧
  Dict.keys (proxies (pm (update_proxy proxy w).2)) = Dict.keys (proxies (pm w)) ∧
  Dict.keys (proxies (pm (ban_proxy proxy w).2)) = Dict.keys (proxies (pm w)).
Proof.
  split_and!; [| | | |done].
  - unfold get_proxy. rewrite dynamic_retry_decorator_unfold.
    pose proof (get_proxy_body_shape w) as (K1 & _ & _).
    destruct (get_proxy_body w) as [[r|e1] w1]; [done|]. cbn [snd] in K1.
    pose proof (get_proxy_body_shape (backoff 1 w1)) as (K2 & _ & _).
    rewrite (proj1 (backoff_shape 1 w1)) in K2.
    destruct (get_proxy_body (backoff 1 w1)) as [[r|e2] w2]; cbn [snd] in *;
      [congruence|].
    pose proof (get_proxy_body_shape (backoff 2 w2)) as (K3 & _ & _).
    rewrite (proj1 (backoff_shape 2 w2)) in K3.
    destruct (get_proxy_body (backoff 2 w2)) as [[r|e3] w3]; cbn [snd] in *; congruence.
  - unfold get_proxy. rewrite dynamic_retry_decorator_unfold.
    pose proof (get_proxy_body_shape w) as (_ & K1 & _).
    destruct (get_proxy_body w) as [[r|e1] w1]; [done|]. cbn [snd] in K1.
    pose proof (get_proxy_body_shape (backoff 1 w1)) as (_ & K2 & _).
    rewrite (proj1 (backoff_shape 1 w1)) in K2.
    destruct (get_proxy_body (backoff 1 w1)) as [[r|e2] w2]; cbn [snd] in *;
      [congruence|].
    pose proof (get_proxy_body_shape (backoff 2 w2)) as (_ & K3 & _).
    rewrite (proj1 (backoff_shape 2 w2)) in K3.
    destruct (get_proxy_body (backoff 2 w2)) as [[r|e3] w3]; cbn [snd] in *; congruence.
  - unfold get_proxy. rewrite dynamic_retry_decorator_unfold.
    pose proof (get_proxy_body_shape w) as (_ & _ & K1).
    destruct (get_proxy_body w) as [[r|e1] w1]; cbn [snd] in *; [lia|].
    pose proof (get_proxy_body_shape (backoff 1 w1)) as (_ & _ & K2).
    pose proof (proj2 (backoff_shape 1 w1)) as B1.
    destruct (get_proxy_body (backoff 1 w1)) as [[r|e2] w2]; cbn [snd] in *; [lia|].
    pose proof (get_proxy_body_shape (backoff 2 w2)) as (_ & _ & K3).
    pose proof (proj2 (backoff_shape 2 w2)) as B2.
    destruct (get_proxy_body (backoff 2 w2)) as [[r|e3] w3]; cbn [snd] in *; lia.
  - unfold update_proxy. destruct (Dict.mem proxy (proxies (pm w))) eqn:Hmem; [|done].
    apply dict_mem_keys in Hmem. by apply dict_keys_set_known.
Qed.

(** ** What a successful [get_proxy] hands out *)

Lemma get_proxy_body_ok (w w' : World) (h : Handle) (k : string) :
  get_proxy_body w = (Ok (h, k), w') →
  h = proxy_handle k ∧
  eligible (pm w) (clock w) k = true ∧
  w' = set_pm (set_proxies (Dict.set k (clock w) (proxies (pm w)))) w.
Proof.
  intros Hbody. destruct (get_proxy_body_cases w) as [[_ Hraise]|(least & Hel & Hok)].
  - congruence.
  - rewrite Hok in Hbody. by injection Hbody as <- <- <-.
Qed.

(** X4: whenever [get_proxy] returns, on the first try or after pauses, it
    returns a proxy of the pool that passes the ban test at the time of
    the successful try, with a handle whose [http] and [https] entries
    are both [http://] followed by the proxy, and with that time as the
    proxy's new stamp. It never returns [None]. *)
Theorem get_proxy_returns_available_proxy (w w' : World) (r : option (Handle * string)) :
  get_proxy w = (Ok r, w') →
  ∃ h k,
    r = Some (h, k) ∧
    http h = "http://" +:+ k ∧ https h = "http://" +:+ k ∧
    k ∈ Dict.keys (proxies (pm w)) ∧
    is_available (banned_proxies (pm w)) (clock w') k = true ∧
    Dict.get k (proxies (pm w')) = Some (clock w') ∧
    (clock w ≤ clock w')%Z.
Proof.
  unfold get_proxy. rewrite dynamic_retry_decorator_unfold.
  assert (∀ v v' h k,
    get_proxy_body v = (Ok (h, k), v') →
    h = proxy_handle k ∧ k ∈ Dict.keys (proxies (pm v)) ∧
    is_available (banned_proxies (pm v)) (clock v') k = true ∧
    Dict.get k (proxies (pm v')) = Some (clock v') ∧ clock v' = clock v) as Hok.
  { intros v v' h k (-> & [Hin Hav]%eligible_spec & ->)%get_proxy_body_ok.
    split_and!; try done. apply dict_get_set_eq. }
  destruct (get_proxy_body w) as [[[h k]|e1] w1] eqn:H1.
  { intros [= <- <-]. apply Hok in H1 as (-> & ? & ? & ? & Hc).
    exists (proxy_handle k), k. split_and!; try done. lia. }
  apply get_proxy_body_raise in H1 as [_ ->].
  set (v1 := backoff 1 _).
  assert (pm v1 = pm w ∧ (clock w ≤ clock v1)%Z) as [P1 C1].
  { pose proof (backoff_shape 1
      (logging ERROR (MsgNoAvailable (get_dynamic_delay (pm w) (clock w))) w)) as [? ?].
    done. }
  destruct (get_proxy_body v1) as [[[h k]|e2] w2] eqn:H2.
  { intros [= <- <-]. apply Hok in H2 as (-> & ? & ? & ? & Hc).
    exists (proxy_handle k), k. rewrite <- P1. split_and!; try done. lia. }
  apply get_proxy_body_raise in H2 as [_ ->].
  set (v2 := backoff 2 _).
  assert (pm v2 = pm w ∧ (clock w ≤ clock v2)%Z) as [P2 C2].
  { pose proof (backoff_shape 2
      (logging ERROR (MsgNoAvailable (get_dynamic_delay (pm v1) (clock v1))) v1)) as [Hp Hc].
    split; [by rewrite <- P1|]. etrans; [exact C1|]. exact Hc. }
  destruct (get_proxy_body v2) as [[[h k]|e3] w3] eqn:H3; [|done].
  intros [= <- <-]. apply Hok in H3 as (-> & ? & ? & ? & Hc).
  exists (proxy_handle k), k. rewrite <- P2. split_and!; try done. lia.
Qed.

(** A sleep that overruns lets the second try succeed: banned until 180,
    [a] is refused at 0 and handed out at 181. *)
Lemma get_proxy_returns_available_proxy_witness :
  ∃ h w',
    get_proxy (world_lagging single_pool_banned 0 [1%N]) = (Ok (Some (h, "a")), w') ∧
    http h = "http://a" ∧ https h = "http://a" ∧
    clock w' = 181%Z ∧
    events w' =
      [EvLog ERROR (MsgNoAvailable 180); EvLog INFO (MsgAttemptFailed 1 180);
       EvSleep 180].
Proof.
  destruct (get_proxy_returns_available_proxy (world_lagging single_pool_banned 0 [1%N])
              (get_proxy (world_lagging single_pool_banned 0 [1%N])).2
              (Some (proxy_handle "a", "a")))
    as (h & k & Hr & Hhttp & Hhttps & _).
  { vm_compute. reflexivity. }
  injection Hr as <- <-.
  exists (proxy_handle "a"), (get_proxy (world_lagging single_pool_banned 0 [1%N])).2.
  split_and!; [by vm_compute | exact Hhttp | exact Hhttps | by vm_compute | by vm_compute].
Defined.

(** ** More on the dynamic delay *)

(** X5: the delay is never negative, it shrinks as time passes, and once it
    has been waited out it is 0. It is 0 exactly when the ban table is
    empty or holds an unban time that is not in the future. *)
Theorem get_dynamic_delay_waited_out (self : ProxyManager) (now : Z) :
  (0 ≤ get_dynamic_delay self now)%Z ∧
  (∀ t, (now ≤ t)%Z → (get_dynamic_delay self t ≤ get_dynamic_delay self now)%Z) ∧
  (∀ t, (now + get_dynamic_delay self now ≤ t)%Z → get_dynamic_delay self t = 0%Z) ∧
  (get_dynamic_delay self now = 0%Z ↔
     banned_proxies self = ∅ ∨
     ∃ proxy expiry, banned_proxies self !! proxy = Some expiry ∧ (expiry ≤ now)%Z).
Proof.
  split_and!.
  - rewrite get_dynamic_delay_py_min. destruct (py_min _); lia.
  - intros t Ht. rewrite !get_dynamic_delay_py_min. destruct (py_min _); lia.
  - intros t. rewrite !get_dynamic_delay_py_min. destruct (py_min _); lia.
  - rewrite get_dynamic_delay_py_min.
    destruct (py_min _) as [earliest|] eqn:Hmin.
    + pose proof Hmin as [[proxy Hp]%elem_of_ban_times Hall]%py_min_spec.
      rewrite Forall_forall in Hall. split.
      * intros Hzero. right. exists proxy, earliest. split; [done | lia].
      * intros [Hempty|(p & expiry & Hp' & Hle)].
        -- by rewrite Hempty, lookup_empty in Hp.
        -- assert (earliest ≤ expiry)%Z by (apply Hall, elem_of_ban_times; by exists p).
           lia.
    + apply py_min_None, fmap_nil_inv, map_to_list_empty_iff in Hmin. naive_solver.
Qed.

(** ** Rotation *)

Lemma dict_elem_set_other {V} (k q : string) (v v' : V) (d : Dict.t V) :
  q ≠ k → (q, v) ∈ d → (q, v) ∈ Dict.set k v' d.
Proof.
  intros Hne. induction d as [|[k0 v0] d IH]; cbn [Dict.set]; [by intros ?%elem_of_nil|].
  intros [Heq|Hin]%elem_of_cons.
  - injection Heq as <- <-. rewrite decide_False by done. apply list_elem_of_here.
  - destruct (decide (k = k0)) as [->|?].
    + by apply list_elem_of_further.
    + apply list_elem_of_further. by apply IH.
Qed.

(** X6: two acquisitions in a row do not hand out the same proxy while another
    proxy of the pool is available and was last used before now: the stamp
    set by the first one puts its proxy behind the other. *)
Theorem consecutive_acquisitions_differ
    (w w1 : World) (h1 : Handle) (k1 q : string) (lq : Z) :
  Dict.wf (proxies (pm w)) →
  get_proxy_body w = (Ok (h1, k1), w1) →
  (q, lq) ∈ proxies (pm w) → q ≠ k1 →
  is_available (banned_proxies (pm w)) (clock w) q = true →
  (lq < clock w)%Z →
  ∃ k2 w2,
    k2 ≠ k1 ∧
    get_proxy_body w1 = (Ok (proxy_handle k2, k2), w2) ∧
    get_proxy w1 = (Ok (Some (proxy_handle k2, k2)), w2).
Proof.
  intros Hwf (-> & _ & ->)%get_proxy_body_ok Hq Hne Hav Hlt.
  set (w1 := set_pm _ w).
  assert ((q, lq) ∈ proxies (pm w1)) as Hq1 by by apply dict_elem_set_other.
  assert (available_proxies (pm w1) (clock w1) ≠ []) as Hsome.
  { apply available_proxies_nonempty. exists q. split; [|done].
    apply list_elem_of_fmap. by exists (q, lq). }
  destruct (get_proxy_body_selects w1 Hsome)
    as (before & k2 & last_used & after & Hsplit & _ & Hbefore & Hafter & Hbody).
  assert (last_used ≤ lq)%Z as Hle.
  { rewrite Hsplit in Hq1.
    apply elem_of_app in Hq1 as [Hin|[Heq|Hin]%elem_of_cons].
    - specialize (Hbefore q lq Hin Hav). lia.
    - injection Heq as _ ->. lia.
    - by apply (Hafter q lq Hin Hav). }
  assert (k2 ≠ k1) as Hk.
  { intros ->.
    assert (Dict.get k1 (proxies (pm w1)) = Some last_used) as Hget.
    { rewrite Hsplit. apply dict_get_middle. rewrite <- Hsplit.
      by apply dict_wf_set. }
    cbn [w1 pm set_pm set_proxies proxies] in Hget.
    rewrite dict_get_set_eq in Hget. injection Hget as Hget.
    cbn [w1 clock set_pm] in *. lia. }
  exists k2, (set_pm (set_proxies (Dict.set k2 (clock w1) (proxies (pm w1)))) w1).
  split_and!; [done|done|].
  unfold get_proxy. rewrite dynamic_retry_decorator_unfold. by rewrite Hbody.
Qed.

Lemma consecutive_acquisitions_differ_witness :
  ∃ k2 w2,
    k2 ≠ "c" ∧
    get_proxy (get_proxy_body (world_of tie_pool 10)).2 =
      (Ok (Some (proxy_handle k2, k2)), w2).
Proof.
  destruct (consecutive_acquisitions_differ (world_of tie_pool 10)
              (get_proxy_body (world_of tie_pool 10)).2 (proxy_handle "c") "c" "d" 3)
    as (k2 & w2 & Hne & _ & Hrun).
  - change (NoDup ["a"; "b"; "c"; "d"]).
    refine (bool_decide_unpack _ _). by vm_compute.
  - vm_compute. reflexivity.
  - vm_compute. set_solver.
  - done.
  - by vm_compute.
  - by vm_compute.
  - by exists k2, w2.
Defined.

(** ** What the two decorators return *)

(** X7: the decorated function never returns [None]: what it returns or raises
    is what one of the calls of the function returned or raised, with the
    world as that call left it. *)
Theorem dynamic_retry_decorator_passes_result
    {W} `{Host W} {A} (func : M W A) (w : W) :
  (dynamic_retry_decorator func w).1 ≠ Ok None ∧
  (∀ r w', dynamic_retry_decorator func w = (Ok (Some r), w') →
     ∃ v, func v = (Ok r, w')) ∧
  (∀ e w', dynamic_retry_decorator func w = (Raise e, w') →
     ∃ v, func v = (Raise e, w')).
Proof.
  rewrite dynamic_retry_decorator_unfold.
  destruct (func w) as [[r1|e1] w1] eqn:H1.
  { split_and!; [done| |done]. intros r w' [= <- <-]. by exists w. }
  destruct (func (backoff 1 w1)) as [[r2|e2] w2] eqn:H2.
  { split_and!; [done| |done]. intros r w' [= <- <-]. by exists (backoff 1 w1). }
  destruct (func (backoff 2 w2)) as [[r3|e3] w3] eqn:H3.
  { split_and!; [done| |done]. intros r w' [= <- <-]. by exists (backoff 2 w2). }
  split_and!; [done|done|]. intros e w' [= <- <-]. by exists (backoff 2 w2).
Qed.

Lemma attempt_loop_accounting
    {W} `{Host W} {A} (tries : nat) (func : string → M W A) (search_value : string) :
  ∀ n a tr c w,
    a + n = tries →
    ∃ calls r tr' w' records,
      attempt_loop tries func search_value (seq a (S n)) (tr, w) = (r, (tr', w')) ∧
      attempt_loop tries (λ sv, counted (func sv)) search_value (seq a (S n)) (tr, (c, w))
        = (r, (tr', (c + calls, w'))) ∧
      1 ≤ calls ≤ S n ∧
      report search_value tr' = report search_value tr ++ records ∧
      attempt <$> records = seq (a + 1) (length records) ∧
      match r with
      | Ok (Some _) => length records = calls - 1
      | Ok None => False
      | Raise e =>
          calls = S n ∧ length records = S n ∧ error <$> last records = Some (str e)
      end ∧
      (∀ other, other ≠ search_value → report other tr' = report other tr).
Proof.
  intros n. induction n as [|n IH]; intros a tr c w Han.
  - cbn [seq]. rewrite !attempt_loop_cons. unfold counted. cbn [snd fst].
    destruct (func search_value w) as [[r|e] w1] eqn:Hf.
    + exists 1, (Ok (Some r)), tr, w1, []. rewrite (Nat.add_1_r c), app_nil_r.
      split_and!; done || lia.
    + cbv zeta. rewrite !bool_decide_eq_true_2 by lia.
      eexists 1, (Raise e), _, _, [_].
      split_and!;
        [ reflexivity
        | cbn [time_time counting_host snd logging fst];
          rewrite foldl_logging_counted; by rewrite (Nat.add_1_r c)
        | lia | lia
        | apply report_record_failure
        | done ..
        | intros other Hne; by apply report_record_failure_other ].
  - change (seq a (S (S n))) with (a :: seq (S a) (S n)).
    rewrite !attempt_loop_cons. unfold counted at 1. cbn [snd fst].
    destruct (func search_value w) as [[r|e1] w1] eqn:Hf.
    + exists 1, (Ok (Some r)), tr, w1, []. rewrite (Nat.add_1_r c), app_nil_r.
      split_and!; done || lia.
    + cbv zeta. rewrite !bool_decide_eq_false_2 by lia.
      cbn [time_time counting_host snd logging fst].
      edestruct (IH (S a) (record_failure search_value (a + 1) e1 (time_time w1) tr) (S c)
                   (logging WARNING (MsgRetrying (a + 1) (tries + 1) search_value) w1))
        as (calls & r & tr' & w' & records & Hrun & Hcount & Hcalls & Hrep & Hatt
            & Hres & Hother); [lia|].
      exists (S calls), r, tr', w',
        ({| attempt := a + 1; timestamp := time_time w1; error := str e1 |} :: records).
      split_and!.
      * exact Hrun.
      * rewrite Hcount. by replace (S c + calls) with (c + S calls) by lia.
      * lia.
      * lia.
      * rewrite Hrep, report_record_failure. by rewrite <- app_assoc.
      * cbn [fmap list_fmap attempt length]. rewrite Hatt. by rewrite cons_seq.
      * destruct r as [[r|]|e]; [|done|].
        -- cbn [length]. lia.
        -- destruct Hres as (-> & Hlen & Hlast). cbn [length].
           split_and!; [done|lia|].
           rewrite last_cons. by destruct (last records).
      * intros other Hne. rewrite Hother by done.
        by apply report_record_failure_other.
Qed.

(** X8: [retry_with_tracking(tries)] for any function: it calls the function at
    most [tries + 1] times and stops at the first call that returns; every
    failed call, and nothing else, adds one record for the task, numbered
    from 1 in the order of the calls; the records that were there stay,
    those of other tasks are not touched; the wrapper never returns [None],
    and when it raises, all [tries + 1] calls failed and the error is that
    of the last one. *)
Theorem retry_with_tracking_accounting
    {W} `{Host W} {A} (tries : nat) (func : string → M W A) (search_value : string)
    (retry_tracker : RetryTracker) (w : W) :
  ∃ calls r retry_tracker' w' records,
    retry_with_tracking tries func search_value (retry_tracker, w) =
      (r, (retry_tracker', w')) ∧
    retry_with_tracking tries (λ sv, counted (func sv)) search_value
        (retry_tracker, (0, w)) = (r, (retry_tracker', (calls, w'))) ∧
    1 ≤ calls ≤ tries + 1 ∧
    report search_value retry_tracker' = report search_value retry_tracker ++ records ∧
    attempt <$> records = seq 1 (length records) ∧
    match r with
    | Ok (Some _) => length records = calls - 1
    | Ok None => False
    | Raise e =>
        calls = tries + 1 ∧ length records = tries + 1 ∧
        error <$> last records = Some (str e)
    end ∧
    (∀ other, other ≠ search_value →
       report other retry_tracker' = report other retry_tracker).
Proof.
  unfold retry_with_tracking. rewrite (Nat.add_1_r tries).
  destruct (attempt_loop_accounting tries func search_value tries 0 retry_tracker 0 w)
    as (calls & r & tr' & w' & records & Hrun & Hcount & Hcalls & Hrep & Hatt
        & Hres & Hother); [done|].
  exists calls, r, tr', w', records. split_and!; try done; lia.
Qed.

(** ** The task body *)


Section TaskFacts.
Variable requests_get : Handle → World → outcome string.
Variable requests_post : string → string → string → Handle → World → outcome Response.
Variable client_id_match client_secret_match : string → option string.
Variable py_repr : string → string.
Variable file_error : string → World → option Exn.

#[local] Abbreviation access_keys :=
  (get_access_keys requests_get client_id_match client_secret_match py_repr).
#[local] Abbreviation task :=
  (get_serp_results_body requests_get requests_post client_id_match client_secret_match
     py_repr file_error).


End TaskFacts.


(** ** Loading and dispatch *)

Lemma parse_proxies_nonempty (lines : list string) :
  Exists (λ line, strip line ≠ EmptyString) lines → parse_proxies lines ≠ [].
Proof.
  intros (line & Hin & Hline)%Exists_exists Hnil.
  assert (strip line ∈ Dict.keys (parse_proxies lines)) as Hkey.
  { unfold parse_proxies. rewrite dict_comprehension_keys, <- list_fmap_compose.
    apply list_elem_of_fmap. exists line. split; [done|].
    by apply list_elem_of_filter. }
  rewrite Hnil in Hkey. by apply elem_of_nil in Hkey.
Qed.

(** X11: [read_proxies] on a missing file leaves the manager as it is; on a
    file that can be read it replaces the pool by what the file gives,
    also when that is nothing: a reload from a blank file returns [False]
    and leaves an empty pool behind. The ban table is kept in every case,
    and the answer is [True] exactly when the new pool is not empty. *)
Theorem read_proxies_replaces_pool (file_name : string) (w : World) :
  let run := read_proxies file_name w in
  (disk w !! file_name = None → run.1 = Ok false ∧ pm run.2 = pm w) ∧
  (∀ lines, disk w !! file_name = Some lines →
     proxies (pm run.2) = parse_proxies lines ∧
     (Forall (λ line, strip line = EmptyString) lines →
        run.1 = Ok false ∧ proxies (pm run.2) = []) ∧
     (Exists (λ line, strip line ≠ EmptyString) lines →
        run.1 = Ok true ∧ proxies (pm run.2) ≠ [])) ∧
  banned_proxies (pm run.2) = banned_proxies (pm w) ∧
  clock run.2 = clock w.
Proof.
  cbv zeta. unfold read_proxies.
  destruct (disk w !! file_name) as [lines|] eqn:Hfile.
  - cbn [set_pm pm set_proxies proxies banned_proxies].
    split_and!; [done| |by case_bool_decide..].
    intros ? [= <-]. split_and!.
    + by case_bool_decide.
    + intros Hblank. rewrite parse_proxies_blank by done. done.
    + intros Hsome%parse_proxies_nonempty.
      rewrite bool_decide_eq_false_2 by done. done.
  - split_and!; done.
Qed.

(** X12: with a proxy file that has a line that is not blank, [main] starts
    from a fresh manager (bans of an earlier manager are gone), loads the
    pool and hands the executor the 50 search terms [nana0] to [nana49],
    all different, for a pool of [max(10, cpu_count * 5 // 2)] threads,
    which is never fewer than 10. *)
Theorem main_dispatches_fifty_tasks (cpu_count : Z) (lines : list string) (w : World) :
  disk w !! "proxies.txt" = Some lines →
  Exists (λ line, strip line ≠ EmptyString) lines →
  ∃ max_threads w',
    main cpu_count w = (Ok (Submitted max_threads search_terms), w') ∧
    max_threads = Z.max 10 ((cpu_count * 5) `div` 2) ∧ (10 ≤ max_threads)%Z ∧
    (8 ≤ cpu_count → 2 * max_threads ≤ 5 * cpu_count < 2 * max_threads + 2)%Z ∧
    length search_terms = 50 ∧ NoDup search_terms ∧
    proxies (pm w') = parse_proxies lines ∧ proxies (pm w') ≠ [] ∧
    banned_proxies (pm w') = ∅.
Proof.
  intros Hfile Hsome. pose proof (parse_proxies_nonempty lines Hsome) as Hne.
  exists (Z.max 10 ((cpu_count * 5) `div` 2)). eexists.
  split_and!.
  - unfold main, mbind, M_bind, exec, read_proxies. cbn [set_pm disk]. rewrite Hfile.
    cbn [set_pm pm set_proxies proxies]. rewrite bool_decide_eq_false_2 by done.
    cbn [negb]. reflexivity.
  - done.
  - lia.
  - intros Hcpu.
    pose proof (Z.div_mod (cpu_count * 5) 2 ltac:(lia)) as Hdm.
    pose proof (Z.mod_pos_bound (cpu_count * 5) 2 ltac:(lia)) as Hm.
    lia.
  - done.
  - refine (bool_decide_unpack _ _). by vm_compute.
  - done.
  - done.
  - done.
Qed.

Lemma main_dispatches_fifty_tasks_witness :
  (main 16 (world_with_file "proxies.txt" proxy_file)).1 = Ok (Submitted 40 search_terms).
Proof.
  destruct (main_dispatches_fifty_tasks 16 proxy_file
              (world_with_file "proxies.txt" proxy_file))
    as (max_threads & w' & Hrun & -> & _).
  - by vm_compute.
  - apply Exists_cons_hd. by vm_compute.
  - by rewrite Hrun.
Defined.
